(** * BeautifyTable: the CSV reader, the column typer, the cell renderer,
      the formatting mutator and the paginator

    A shallow embedding of [utils/parser.ts] ([generateId], [detectType],
    [parseCSV]) and of the pure parts of [components/EditorView.tsx]
    ([FormattedCell], [applyFormat], [paginatedRows]), and the properties of
    the specification checked against them.

    Modelling conventions.
    - A JavaScript string is the list of its UTF-16 code units ([jsstring]);
      [js "..."] writes an ASCII literal.
    - A row object ([TableRow]) is the finite map of its own properties,
      from names to string values; the row id lives in it under the key
      ["id"], as in the source.  Its prototype is [Object.prototype]: a
      name that the row does not own reads as the member that the prototype
      holds under it ([getProp]), and an assignment to [__proto__] is
      swallowed by the setter of the prototype ([setProp]).
    - What the source takes from its environment is a parameter:
      the renderings [Math.random().toString(36)] drawn by [generateId],
      whether [Date.parse] fails on a string, [String.toUpperCase], and the
      text that the engine gives for a built-in function. *)

From Stdlib Require Import ZArith NArith List Bool Lia String Ascii.
From stdpp Require Import base option list gmap.
Import ListNotations.

Local Open Scope N_scope.

(** ** JavaScript strings *)

Module JS.

(** A UTF-16 code unit. *)
Definition code_unit := N.

Definition jsstring := list code_unit.

(** An ASCII literal as a JavaScript string. *)
Definition js (s : string) : jsstring :=
  map N_of_ascii (list_ascii_of_string s).

Definition TAB : code_unit := 9.
Definition LF : code_unit := 10.
Definition CR : code_unit := 13.
Definition SPACE : code_unit := 32.
Definition QUOTE : code_unit := 34.
Definition HASH : code_unit := 35.
Definition DOLLAR : code_unit := 36.
Definition STAR : code_unit := 42.
Definition PLUS : code_unit := 43.
Definition COMMA : code_unit := 44.
Definition MINUS : code_unit := 45.
Definition DOT : code_unit := 46.
Definition UNDERSCORE : code_unit := 95.

(** [WhiteSpace] and [LineTerminator] of ECMAScript: what [trim] removes and
    what [\s] matches. *)
Definition isWhiteSpace (c : code_unit) : bool :=
  (c =? 9) || (c =? 10) || (c =? 11) || (c =? 12) || (c =? 13) || (c =? 32)
  || (c =? 160) || (c =? 5760) || ((8192 <=? c) && (c <=? 8202))
  || (c =? 8232) || (c =? 8233) || (c =? 8239) || (c =? 8287)
  || (c =? 12288) || (c =? 65279).

(** [LineTerminator]: what [.] does not match. *)
Definition isLineTerminator (c : code_unit) : bool :=
  (c =? 10) || (c =? 13) || (c =? 8232) || (c =? 8233).

Fixpoint trimStart (s : jsstring) : jsstring :=
  match s with
  | c :: rest => if isWhiteSpace c then trimStart rest else s
  | [] => []
  end.

Definition trimEnd (s : jsstring) : jsstring := rev (trimStart (rev s)).

(** [s.trim()] *)
Definition trim (s : jsstring) : jsstring := trimEnd (trimStart s).

Definition eqb_str (a b : jsstring) : bool := bool_decide (a = b).

(** [s.startsWith(p)] *)
Fixpoint startsWith (s p : jsstring) : bool :=
  match p, s with
  | [], _ => true
  | _ :: _, [] => false
  | x :: p', c :: s' => (c =? x) && startsWith s' p'
  end.

(** [s.endsWith(p)] *)
Definition endsWith (s p : jsstring) : bool := startsWith (rev s) (rev p).

(** [s.includes(c)] for a one-character needle. *)
Definition includesChar (s : jsstring) (c : code_unit) : bool :=
  existsb (N.eqb c) s.

(** [s.substring(a)] and [s.substring(0, b)] for literal bounds. *)
Definition substringFrom (s : jsstring) (a : nat) : jsstring := drop a s.
Definition substringTo (s : jsstring) (b : nat) : jsstring := take b s.

(** [s.substr(start, len)] for non-negative literal arguments. *)
Definition substr (s : jsstring) (start len : nat) : jsstring :=
  take len (drop start s).

(** [s.split(/\r?\n/)]: the pieces between line ends; a string without a
    line end is its own single piece. *)
Fixpoint splitLines (s : jsstring) : list jsstring :=
  match s with
  | [] => [[]]
  | c :: rest =>
      if c =? LF then [] :: splitLines rest
      else
        match rest with
        | n :: rest' =>
            if (c =? CR) && (n =? LF) then [] :: splitLines rest'
            else
              match splitLines rest with
              | l :: ls => (c :: l) :: ls
              | [] => [[c]]
              end
        | [] => [[c]]
        end
  end.

(** [lines.join(sep)] *)
Fixpoint join (sep : jsstring) (parts : list jsstring) : jsstring :=
  match parts with
  | [] => []
  | [p] => p
  | p :: rest => p ++ sep ++ join sep rest
  end.

End JS.

Export JS.

(** ** [utils/parser.ts] *)

Module Parser.

(** *** [Number(string)] and [isNaN]

    [StringToNumber] of ECMAScript: optional white space around a
    [StrNumericLiteral]; the empty string is [0]; anything else is [NaN]. *)

(** The value of a numeric string before it is rounded to a double:
    [Decimal neg m e] stands for [(-1)^neg * m * 10^e]. *)
Inductive number :=
  | NaN
  | Infinity (negative : bool)
  | Decimal (negative : bool) (digits : N) (exp10 : Z).

Definition ch (a : ascii) : code_unit := N_of_ascii a.
Arguments ch a%_char.

(** The value of [c] as a digit of the given radix. *)
Definition digitValue (radix : N) (c : code_unit) : option N :=
  let v :=
    if (48 <=? c) && (c <=? 57) then Some (c - 48)
    else if (97 <=? c) && (c <=? 122) then Some (c - 87)
    else if (65 <=? c) && (c <=? 90) then Some (c - 55)
    else None in
  match v with
  | Some d => if d <? radix then Some d else None
  | None => None
  end.

(** The longest run of digits at the head of [s]: its value after [acc],
    how many digits it has, and what follows it. *)
Fixpoint digitsOf (radix acc : N) (count : nat) (s : jsstring)
  : N * nat * jsstring :=
  match s with
  | c :: rest =>
      match digitValue radix c with
      | Some d => digitsOf radix (acc * radix + d) (S count) rest
      | None => (acc, count, s)
      end
  | [] => (acc, count, [])
  end.

(** [0x..], [0o..], [0b..]: one digit at least and nothing after them. *)
Definition nonDecimalLiteral (radix : N) (s : jsstring) : number :=
  let '(v, n, rest) := digitsOf radix 0 0 s in
  match n, rest with
  | S _, [] => Decimal false v 0
  | _, _ => NaN
  end.

(** [ExponentPart] (or nothing) up to the end of the string. *)
Definition exponentPart (s : jsstring) : option Z :=
  match s with
  | [] => Some 0%Z
  | c :: rest =>
      if (c =? ch "e") || (c =? ch "E") then
        let '(neg, ds) :=
          match rest with
          | sg :: r =>
              if sg =? PLUS then (false, r)
              else if sg =? MINUS then (true, r)
              else (false, rest)
          | [] => (false, rest)
          end in
        let '(v, n, after) := digitsOf 10 0 0 ds in
        match n, after with
        | S _, [] => Some (if neg then (- Z.of_N v)%Z else Z.of_N v)
        | _, _ => None
        end
      else None
  end.

(** [StrUnsignedDecimalLiteral]: [Infinity], or digits with an optional
    fraction and exponent, at least one digit before the exponent. *)
Definition unsignedDecimalLiteral (neg : bool) (s : jsstring) : number :=
  if eqb_str s (js "Infinity") then Infinity neg
  else
    let '(i, ni, r1) := digitsOf 10 0 0 s in
    let '(m, nf, r2) :=
      match r1 with
      | c :: r => if c =? DOT then digitsOf 10 i 0 r else (i, 0%nat, r1)
      | [] => (i, 0%nat, r1)
      end in
    match (ni + nf)%nat with
    | O => NaN
    | S _ =>
        match exponentPart r2 with
        | Some e => Decimal neg m (e - Z.of_nat nf)
        | None => NaN
        end
    end.

(** [Number(s)] for a string [s]. *)
Definition Number (s : jsstring) : number :=
  match trim s with
  | [] => Decimal false 0 0
  | c :: rest =>
      match rest with
      | p :: ds =>
          if (c =? ch "0") && ((p =? ch "x") || (p =? ch "X"))
          then nonDecimalLiteral 16 ds
          else if (c =? ch "0") && ((p =? ch "o") || (p =? ch "O"))
          then nonDecimalLiteral 8 ds
          else if (c =? ch "0") && ((p =? ch "b") || (p =? ch "B"))
          then nonDecimalLiteral 2 ds
          else if c =? PLUS then unsignedDecimalLiteral false rest
          else if c =? MINUS then unsignedDecimalLiteral true rest
          else unsignedDecimalLiteral false (c :: rest)
      | [] => unsignedDecimalLiteral false [c]
      end
  end.

Definition isNaN (n : number) : bool :=
  match n with NaN => true | _ => false end.

(** Magnitudes from [2^1024 - 2^970] on round to an infinite double. *)
Definition overflowBound : N := 2 ^ 1024 - 2 ^ 970.

(** [isFinite]: neither [NaN] nor infinite once rounded to a double. *)
Definition isFinite (n : number) : bool :=
  match n with
  | NaN => false
  | Infinity _ => false
  | Decimal _ m e =>
      if (0 <=? e)%Z then m * 10 ^ Z.to_N e <? overflowBound
      else m <? overflowBound * 10 ^ Z.to_N (- e)
  end.

(** *** [generateId] *)

(** The digit of value [d] in base 36: [0]-[9], then [a]-[z]. *)
Definition digit36 (d : N) : code_unit :=
  if d <? 10 then 48 + d else 87 + d.


(** The first [digits] digits after the point of [k / 2^n] in base 36, up to
    the last one that is not zero. *)
Fixpoint fraction36 (digits : nat) (k n : N) : jsstring :=
  match digits with
  | O => []
  | S digits' =>
      if k =? 0 then []
      else digit36 (k * 36 / 2 ^ n) :: fraction36 digits' (k * 36 mod 2 ^ n) n
  end.

(** [Number.prototype.toString(36)] of the double [k / 2^n] of [0, 1), for
    the doubles whose base-36 expansion is shorter than the precision of a
    double: the engines print the expansion itself for them (it has [n]
    digits at most).  Longer expansions are cut at a digit that depends on
    the engine and are not modelled. *)
Definition toString36 (k n : N) : jsstring :=
  if k =? 0 then js "0" else js "0." ++ fraction36 (N.to_nat n) k n.

(** [generateId = () => Math.random().toString(36).substr(2, 9)], as a
    function of the rendering [Math.random().toString(36)] it draws. *)
Definition generateId (rendering : jsstring) : jsstring :=
  substr rendering 2 9.

(** *** The table model of [types.ts] *)

Inductive ColumnType := TText | TNumber | TCurrency | TDate | TTag.

Record TableColumn := {
  key : jsstring;
  label : jsstring;
  type : ColumnType;
}.

(** A row object: its own properties, the id under ["id"] among them.  Its
    prototype is [Object.prototype]. *)
Abbreviation TableRow := (gmap jsstring jsstring).

(** The names under which [Object.prototype] holds a member. *)
Definition prototypeNames : list jsstring :=
  [ js "__proto__"; js "constructor"; js "hasOwnProperty"; js "isPrototypeOf";
    js "propertyIsEnumerable"; js "toLocaleString"; js "toString"; js "valueOf";
    js "__defineGetter__"; js "__defineSetter__"; js "__lookupGetter__";
    js "__lookupSetter__" ].

Record ParsedTable := {
  rows : list TableRow;
  columns : list TableColumn;
}.

(** The primitive values that a cell or an [any[]] column can hold. *)
Inductive value :=
  | Undefined
  | Null
  | Str (s : jsstring).

#[global] Instance value_eq_dec : EqDecision value.
Proof. solve_decision. Defined.

(** What reading a property of a row gives: a primitive value, or the member
    that [Object.prototype] holds under the name, which is an object: the
    prototype of the row under [__proto__] (an accessor), a built-in
    function under the other names.  Two inherited members are the same
    object when their names are the same. *)
Inductive property :=
  | Primitive (v : value)
  | Inherited (name : jsstring).

#[global] Instance property_eq_dec : EqDecision property.
Proof. solve_decision. Defined.

(** [r[name]]: an own property comes before an inherited one. *)
Definition getProp (r : TableRow) (name : jsstring) : property :=
  match r !! name with
  | Some s => Primitive (Str s)
  | None =>
      if bool_decide (name ∈ prototypeNames) then Inherited name
      else Primitive Undefined
  end.

(** [r[name] = s] for a string [s]: an own property is overwritten; without
    one, the name [__proto__] runs the setter of [Object.prototype], which
    does nothing with a string, and every other name becomes an own
    property (the members of [Object.prototype] are writable). *)
Definition setProp (r : TableRow) (name s : jsstring) : TableRow :=
  match r !! name with
  | Some _ => <[name := s]> r
  | None => if eqb_str name (js "__proto__") then r else <[name := s]> r
  end.

(** [row.id]: [Object.prototype] holds nothing under [id]. *)
Definition rowId (r : TableRow) : value :=
  match r !! js "id" with
  | Some s => Str s
  | None => Undefined
  end.

(** A returned value, a thrown [Error(message)], or a [TypeError] that the
    engine throws when what is called is not a function (its message is the
    engine's own). *)
Inductive result (A : Type) :=
  | Ok (a : A)
  | Throw (message : jsstring)
  | ThrowTypeError.
Arguments Ok {A} a.
Arguments Throw {A} message.
Arguments ThrowTypeError {A}.

#[global] Instance result_ret : MRet result := fun A a => Ok a.

#[global] Instance result_bind : MBind result := fun A B f r =>
  match r with
  | Ok a => f a
  | Throw message => Throw message
  | ThrowTypeError => ThrowTypeError
  end.

(** *** [detectType] *)

(** [v !== null && v !== undefined && v !== ''] *)
Definition isValid (v : value) : bool :=
  match v with
  | Undefined | Null => false
  | Str s => negb (eqb_str s [])
  end.

(** The text of a value that passed [isValid]. *)
Definition text (v : value) : jsstring :=
  match v with
  | Str s => s
  | Undefined => js "undefined"
  | Null => js "null"
  end.

(** [v.replace(/[$,]/g, '')] *)
Definition stripMoney (s : jsstring) : jsstring :=
  List.filter (fun c => negb ((c =? DOLLAR) || (c =? COMMA))) s.

(** [!isNaN(Number(v.replace(/[$,]/g, '')))] *)
Definition numeric (v : value) : bool :=
  negb (isNaN (Number (stripMoney (text v)))).

(** [detectType] on a column of primitive values; [detectTypeAny] below is
    the function on every column that can be read from row objects, and is
    this one as long as the column holds no object
    ([detectTypeAny_primitive]). *)
Section DetectType.

(** [isNaN(Date.parse(s))]: the date formats accepted beyond ISO 8601 are the
    engine's own. *)
Variable dateParseFails : jsstring -> bool.

Definition validValues (values : list value) : list value :=
  List.filter isValid values.

(** [new Set(validValues).size] *)
Definition uniqueCount (vs : list value) : nat := length (remove_dups vs).

Definition detectType (values : list value) : ColumnType :=
  let validValues := validValues values in
  if Nat.eqb (length validValues) 0 then TText
  else
    let isNumber := forallb numeric validValues in
    if isNumber then
      if existsb (fun v => includesChar (text v) DOLLAR) validValues
      then TCurrency
      else TNumber
    else
      let isDate :=
        forallb (fun v => negb (dateParseFails (text v))) validValues in
      if isDate then TDate
      else
        let isShort :=
          forallb (fun v => Nat.ltb (length (text v)) 20) validValues in
        (* [size < length / 2] over the reals *)
        if isShort && Nat.ltb (2 * uniqueCount validValues) (length validValues)
        then TTag
        else TText.

End DetectType.

(** *** [detectType] on the properties of row objects

    The column that [parseCSV] hands to [detectType] is read from the row
    objects, so that it can hold members of [Object.prototype]. *)

Section DetectTypeAny.

Variable dateParseFails : jsstring -> bool.
(** [String(f)] of the built-in function that [Object.prototype] holds under
    a name: the rendering of native code is the engine's own. *)
Variable functionText : jsstring -> jsstring.

(** [String(v)] and [v.toString()] of an inherited member. *)
Definition inheritedText (name : jsstring) : jsstring :=
  if eqb_str name (js "__proto__") then js "[object Object]"
  else functionText name.

(** [v !== null && v !== undefined && v !== ''] *)
Definition isValidAny (p : property) : bool :=
  match p with
  | Primitive v => isValid v
  | Inherited _ => true
  end.

(** [v.toString()], and the [String(v)] that [Date.parse(v)] reads, of a
    value that passed [isValidAny]. *)
Definition textAny (p : property) : jsstring :=
  match p with
  | Primitive v => text v
  | Inherited name => inheritedText name
  end.

(** [validValues.every(v => !isNaN(Number(v.replace(/[$,]/g, ''))))]: [every]
    stops at the first value whose test is false, and [v.replace] is not a
    function when it reaches a value that is not a string. *)
Fixpoint everyNumeric (validValues : list property) : result bool :=
  match validValues with
  | [] => Ok true
  | Primitive (Str s) :: rest =>
      if numeric (Str s) then everyNumeric rest else Ok false
  | _ :: _ => ThrowTypeError
  end.

Definition detectTypeAny (values : list property) : result ColumnType :=
  let validValues := List.filter isValidAny values in
  if Nat.eqb (length validValues) 0 then Ok TText
  else
    isNumber ← everyNumeric validValues;
    if (isNumber : bool) then
      if existsb (fun v => includesChar (textAny v) DOLLAR) validValues
      then Ok TCurrency
      else Ok TNumber
    else
      let isDate :=
        forallb (fun v => negb (dateParseFails (textAny v))) validValues in
      if isDate then Ok TDate
      else
        let isShort :=
          forallb (fun v => Nat.ltb (length (textAny v)) 20) validValues in
        if isShort
           && Nat.ltb (2 * length (remove_dups validValues)) (length validValues)
        then Ok TTag
        else Ok TText.

End DetectTypeAny.

(** *** [parseCSV] *)

(** The variables of the scanning loop. *)
Record scanner := {
  rowsData : list (list jsstring);
  currentRow : list jsstring;
  currentCell : jsstring;
  insideQuotes : bool;
}.

Definition scanStart : scanner :=
  {| rowsData := []; currentRow := []; currentCell := []; insideQuotes := false |}.

(** [currentCell += char] *)
Definition addChar (c : code_unit) (st : scanner) : scanner :=
  {| rowsData := rowsData st; currentRow := currentRow st;
     currentCell := currentCell st ++ [c]; insideQuotes := insideQuotes st |}.

(** [insideQuotes = !insideQuotes] *)
Definition toggleQuotes (st : scanner) : scanner :=
  {| rowsData := rowsData st; currentRow := currentRow st;
     currentCell := currentCell st; insideQuotes := negb (insideQuotes st) |}.

(** [currentRow.push(currentCell); currentCell = ''] *)
Definition endCell (st : scanner) : scanner :=
  {| rowsData := rowsData st; currentRow := currentRow st ++ [currentCell st];
     currentCell := []; insideQuotes := insideQuotes st |}.

(** [currentRow.push(currentCell); rowsData.push(currentRow);
    currentRow = []; currentCell = ''] *)
Definition endRow (st : scanner) : scanner :=
  {| rowsData := rowsData st ++ [currentRow st ++ [currentCell st]];
     currentRow := []; currentCell := []; insideQuotes := insideQuotes st |}.

(** The [for] loop over the characters of [content]: [c] is [content[i]],
    the head of the rest is [content[i + 1]], and the branches that run
    [i++] go on after it. *)
Fixpoint scan (content : jsstring) (st : scanner) : scanner :=
  match content with
  | [] => st
  | c :: rest =>
      if c =? QUOTE then
        match rest with
        | n :: rest' =>
            if insideQuotes st && (n =? QUOTE)
            then scan rest' (addChar QUOTE st)
            else scan rest (toggleQuotes st)
        | [] => scan rest (toggleQuotes st)
        end
      else if (c =? COMMA) && negb (insideQuotes st) then
        scan rest (endCell st)
      else if ((c =? CR) || (c =? LF)) && negb (insideQuotes st) then
        match rest with
        | n :: rest' =>
            if (c =? CR) && (n =? LF)
            then scan rest' (endRow st)
            else scan rest (endRow st)
        | [] => scan rest (endRow st)
        end
      else scan rest (addChar c st)
  end.

(** The rows after the loop and the flush of a pending last row:
    [if (currentCell || currentRow.length > 0)]. *)
Definition scanRows (content : jsstring) : list (list jsstring) :=
  let st := scan content scanStart in
  if negb (eqb_str (currentCell st) []) || Nat.ltb 0 (length (currentRow st))
  then rowsData (endRow st)
  else rowsData st.

(** [r.length > 0 && (r.length > 1 || r[0] !== '')] *)
Definition isValidRow (r : list jsstring) : bool :=
  match r with
  | [] => false
  | [c] => negb (eqb_str c [])
  | _ :: _ :: _ => true
  end.

(** [rowValues.length === headers.length ||
     (rowValues.length === headers.length + 1 &&
      rowValues[headers.length] === '')] *)
Definition acceptsRow (headers rowValues : list jsstring) : bool :=
  Nat.eqb (length rowValues) (length headers)
  || (Nat.eqb (length rowValues) (length headers + 1)
      && bool_decide (rowValues !! length headers = Some [])).

(** [headers.forEach((h, idx) => row[h] = rowValues[idx] || '')], from
    index [idx] on. *)
Fixpoint assignCells (headers : list jsstring) (idx : nat)
    (rowValues : list jsstring) (row : TableRow) : TableRow :=
  match headers with
  | [] => row
  | h :: hs =>
      assignCells hs (S idx) rowValues
        (setProp row h (default [] (rowValues !! idx)))
  end.

Section ParseCSV.

(** The [k]-th rendering [Math.random().toString(36)] of the run. *)
Variable random36 : nat -> jsstring.
Variable dateParseFails : jsstring -> bool.
Variable functionText : jsstring -> jsstring.
(** [s.toUpperCase()] *)
Variable toUpperCase : jsstring -> jsstring.

(** The loop over [validRowsData[1..]]: the rows pushed so far and the
    number of ids drawn so far. *)
Fixpoint dataRows (headers : list jsstring) (data : list (list jsstring))
    (drawn : nat) (acc : list TableRow) : list TableRow :=
  match data with
  | [] => acc
  | rowValues :: data' =>
      if acceptsRow headers rowValues then
        let row : TableRow := {[ js "id" := generateId (random36 drawn) ]} in
        dataRows headers data' (S drawn)
          (acc ++ [assignCells headers 0 rowValues row])
      else dataRows headers data' drawn acc
  end.

(** [header.charAt(0).toUpperCase() + header.slice(1)] *)
Definition capitalize (header : jsstring) : jsstring :=
  toUpperCase (take 1 header) ++ drop 1 header.

(** The callback of [headers.map]: [detectType] can throw. *)
Definition columnOf (rows : list TableRow) (header : jsstring)
  : result TableColumn :=
  type ← detectTypeAny dateParseFails functionText
            (map (fun r => getProp r header) rows);
  Ok {| key := header; label := capitalize header; type := type |}.

Definition parseCSV (content : jsstring) : result ParsedTable :=
  let rowsData := scanRows content in
  if Nat.eqb (length rowsData) 0 then Throw (js "File appears empty")
  else
    let validRowsData := List.filter isValidRow rowsData in
    match validRowsData with
    | [] => Throw (js "No valid data found")
    | first :: data =>
        let headers := map trim first in
        let rows := dataRows headers data 0 [] in
        columns ← mapM (columnOf rows) headers;
        Ok {| rows := rows; columns := columns |}
    end.

End ParseCSV.

End Parser.

(** ** [components/EditorView.tsx] *)

Module Editor.

Import Parser.

(** *** Regular expressions of the component *)

Definition isHexDigit (c : code_unit) : bool :=
  ((48 <=? c) && (c <=? 57)) || ((97 <=? c) && (c <=? 102))
  || ((65 <=? c) && (c <=? 70)).

(** [/^hN\s/i] for the digit [d] *)
Definition matchesHeading (d : code_unit) (s : jsstring) : bool :=
  match s with
  | c0 :: c1 :: c2 :: _ =>
      ((c0 =? ch "h") || (c0 =? ch "H")) && (c1 =? d) && isWhiteSpace c2
  | _ => false
  end.

(** [/^h[1-3]\s/i] *)
Definition matchesAnyHeading (s : jsstring) : bool :=
  matchesHeading (ch "1") s || matchesHeading (ch "2") s
  || matchesHeading (ch "3") s.

(** [/^#\s/] *)
Definition matchesOrdered (s : jsstring) : bool :=
  match s with
  | c0 :: c1 :: _ => (c0 =? HASH) && isWhiteSpace c1
  | _ => false
  end.

(** [/^[+\-*]\s/] *)
Definition matchesBullet (s : jsstring) : bool :=
  match s with
  | c0 :: c1 :: _ =>
      ((c0 =? PLUS) || (c0 =? MINUS) || (c0 =? STAR)) && isWhiteSpace c1
  | _ => false
  end.

(** [.*?\[\/color\]] at the head of [s]: the shortest run without a line
    terminator that [[/color]] follows, and what comes after the tag. *)
Fixpoint lazyUntilClose (s : jsstring) : option (jsstring * jsstring) :=
  if startsWith s (js "[/color]") then Some ([], drop 8 s)
  else
    match s with
    | c :: rest =>
        if isLineTerminator c then None
        else
          match lazyUntilClose rest with
          | Some (inner, after) => Some (c :: inner, after)
          | None => None
          end
    | [] => None
    end.

(** The longest run of hexadecimal digits at the head of [s]. *)
Fixpoint hexRun (s : jsstring) : jsstring :=
  match s with
  | c :: rest => if isHexDigit c then c :: hexRun rest else []
  | [] => []
  end.

(** [\[color=#[0-9a-fA-F]{3,6}\]] at the head of [s]: the colour with its
    [#], and what follows the bracket. *)
Definition colorOpen (s : jsstring) : option (jsstring * jsstring) :=
  if startsWith s (js "[color=#") then
    let body := drop 8 s in
    let hex := hexRun body in
    let k := length hex in
    match drop k body with
    | c :: after =>
        if Nat.leb 3 k && Nat.leb k 6 && (c =? ch "]")
        then Some (ch "#" :: hex, after)
        else None
    | [] => None
    end
  else None.

(** [\[color=#[0-9a-fA-F]{3,6}\](.*?)\[\/color\]] at the head of [s]: the
    colour, the group, and the length of the match. *)
Definition colorSpanAt (s : jsstring) : option (jsstring * jsstring * nat) :=
  match colorOpen s with
  | Some (color, body) =>
      match lazyUntilClose body with
      | Some (inner, after) => Some (color, inner, (length s - length after)%nat)
      | None => None
      end
  | None => None
  end.

(** [s.replace(/\[color=#[0-9a-fA-F]{3,6}\](.*?)\[\/color\]/g, '$1')];
    [skip] characters of a match are still to be passed over. *)
Fixpoint stripColorFrom (skip : nat) (s : jsstring) : jsstring :=
  match s with
  | [] => []
  | c :: rest =>
      match skip with
      | S k => stripColorFrom k rest
      | O =>
          match colorSpanAt s with
          | Some (_, inner, n) => inner ++ stripColorFrom (n - 1) rest
          | None => c :: stripColorFrom 0 rest
          end
      end
  end.

Definition stripColor (s : jsstring) : jsstring := stripColorFrom 0 s.

(** [s.replace(/^\*|\*$/g, '')]: a star at the very start goes, and so does
    a star at the very end of what is left to scan. *)
Definition dropLastStar (s : jsstring) : jsstring :=
  match rev s with
  | c :: before => if c =? STAR then rev before else s
  | [] => s
  end.

Definition unwrapStars (s : jsstring) : jsstring :=
  match s with
  | c :: rest => if c =? STAR then dropLastStar rest else dropLastStar s
  | [] => []
  end.

(** [s.replace(/^_+|_+$/g, '')] *)
Fixpoint dropUnderscores (s : jsstring) : jsstring :=
  match s with
  | c :: rest => if c =? UNDERSCORE then dropUnderscores rest else s
  | [] => []
  end.

Definition unwrapUnderscores (s : jsstring) : jsstring :=
  rev (dropUnderscores (rev (dropUnderscores s))).

(** *** Rich text: [parseItalic], [parseBold], [parseColor] *)





(** [part.slice(1, -1)] *)
Definition inner (part : jsstring) : jsstring :=
  take (length part - 2) (drop 1 part).








(** *** [FormattedCell] *)






(** *** [applyFormat] *)

Inductive FormatType := bold | italic | color.

(** What the handler reads and writes: the columns of the [data] prop, and
    the [tableRows] and [selectedCells] states. *)
Record EditorState := {
  dataColumns : list TableColumn;
  tableRows : list TableRow;
  selectedCells : gset jsstring;
}.

(** [row.id] inside a template literal. *)
Definition idText (row : TableRow) : jsstring :=
  Parser.text (rowId row).

(** [`${row.id}-${col.key}`] *)
Definition cellId (row : TableRow) (colKey : jsstring) : jsstring :=
  idText row ++ js "-" ++ colKey.

(** The callback of [lines.map] in [applyFormat]. *)
Definition formatLine (type : FormatType) (value : option jsstring)
    (line : jsstring) : jsstring :=
  let trimmed := trim line in
  let '(prefix, text) :=
    if matchesAnyHeading trimmed then (take 3 trimmed, drop 3 trimmed)
    else if matchesBullet trimmed then (take 2 trimmed, drop 2 trimmed)
    else if matchesOrdered trimmed then (take 2 trimmed, drop 2 trimmed)
    else ([], line) in
  let newText :=
    match type with
    | bold =>
        if startsWith (trim text) [STAR] && endsWith (trim text) [STAR]
        then unwrapStars text
        else [STAR] ++ text ++ [STAR]
    | italic =>
        if startsWith (trim text) [UNDERSCORE] && endsWith (trim text) [UNDERSCORE]
        then unwrapUnderscores text
        else [UNDERSCORE] ++ text ++ [UNDERSCORE]
    | color =>
        match value with
        | Some (c :: v) =>
            js "[color=" ++ (c :: v) ++ js "]" ++ stripColor text ++ js "[/color]"
        | _ => text
        end
    end in
  prefix ++ newText.

(** The new text of a selected cell. *)
Definition formatCell (type : FormatType) (value : option jsstring)
    (content : jsstring) : jsstring :=
  join [LF] (map (formatLine type value) (splitLines content)).

Section ApplyFormat.

(** [String(f)] of the built-in functions of [Object.prototype], as in
    [detectTypeAny]. *)
Variable functionText : jsstring -> jsstring.

(** [String(newRow[col.key] || '')]: an object is truthy. *)
Definition cellContent (p : property) : jsstring :=
  match p with
  | Primitive (Str s) => s
  | Primitive _ => []
  | Inherited name => inheritedText functionText name
  end.

(** [data.columns.forEach(col => ...)] on one row: [newRow] and [modified]
    after the columns of [cols]. *)
Fixpoint formatColumns (type : FormatType) (value : option jsstring)
    (selected : gset jsstring) (row : TableRow) (cols : list TableColumn)
    (newRow : TableRow) (modified : bool) : TableRow * bool :=
  match cols with
  | [] => (newRow, modified)
  | col :: cols' =>
      if bool_decide (cellId row (key col) ∈ selected) then
        let content := cellContent (getProp newRow (key col)) in
        formatColumns type value selected row cols'
          (setProp newRow (key col) (formatCell type value content)) true
      else formatColumns type value selected row cols' newRow modified
  end.

(** The callback of [tableRows.map]. *)
Definition formatRow (type : FormatType) (value : option jsstring)
    (selected : gset jsstring) (cols : list TableColumn) (row : TableRow)
  : TableRow :=
  let '(newRow, modified) :=
    formatColumns type value selected row cols row false in
  if modified then newRow else row.

Definition applyFormat (type : FormatType) (value : option jsstring)
    (st : EditorState) : EditorState :=
  if Nat.eqb (size (selectedCells st)) 0 then st
  else
    {| dataColumns := dataColumns st;
       tableRows :=
         map (formatRow type value (selectedCells st) (dataColumns st))
             (tableRows st);
       selectedCells := selectedCells st |}.

End ApplyFormat.

(** *** [paginatedRows] *)

(** [l.slice(start, end)]: a negative index counts from the end, and both
    are brought into [0, length]. *)
Definition slice {A} (l : list A) (start end_ : Z) : list A :=
  let len := Z.of_nat (length l) in
  let k := if (start <? 0)%Z then Z.max (len + start) 0 else Z.min start len in
  let final := if (end_ <? 0)%Z then Z.max (len + end_) 0 else Z.min end_ len in
  take (Z.to_nat (final - k)) (drop (Z.to_nat k) l).

(** The [for] loop from the index [i] with the pages pushed so far.
    [rowsPerPage] is the integer the state holds; [fuel] bounds the number
    of times the loop tests [i < tableRows.length], and [None] says that the
    loop is still running after them. *)
Fixpoint paginateFrom {A} (fuel : nat) (tableRows : list A)
    (rowsPerPage i : Z) (pages : list (list A)) : option (list (list A)) :=
  match fuel with
  | O => None
  | S fuel' =>
      if (i <? Z.of_nat (length tableRows))%Z then
        paginateFrom fuel' tableRows rowsPerPage (i + rowsPerPage)
          (pages ++ [slice tableRows i (i + rowsPerPage)])
      else Some pages
  end.

Definition paginatedRows {A} (fuel : nat) (tableRows : list A)
    (rowsPerPage : Z) : option (list (list A)) :=
  paginateFrom fuel tableRows rowsPerPage 0 [].

End Editor.

(** ** The environment of the examples and the writer of the round trip *)

Module Spec.

Import Parser.

(** [Date.parse] on the strings of the examples below: none of them is a
    date to any engine. *)
Definition noDateParses : jsstring -> bool := fun _ => true.

(** [toUpperCase] on ASCII text. *)
Definition upperAscii (s : jsstring) : jsstring :=
  map (fun c => if (97 <=? c) && (c <=? 122) then c - 32 else c) s.

(** The built-in functions as V8 renders them; the function under
    [constructor] is named [Object]. *)
Definition nativeFunctionText (name : jsstring) : jsstring :=
  (js "function "
   ++ (if eqb_str name (js "constructor") then js "Object" else name)
   ++ js "() { [native code] }")%list.

(** A run of draws of [Math.random()]: the doubles [(2k + 1) / 2^18]. *)
Definition sampleRandom36 (k : nat) : jsstring :=
  toString36 (2 * N.of_nat k + 1) 18.

(** Modelled from the spec: the CSV writer of the round-trip property (the
    repository only reads CSV).  A field that holds a comma, a double quote
    or a line end is written between double quotes with its quotes doubled,
    the other fields as they are; the fields of a row are separated by
    commas and every row is ended by a line feed. *)
Definition needsQuotes (field : jsstring) : bool :=
  existsb (fun c => (c =? COMMA) || (c =? QUOTE) || (c =? CR) || (c =? LF)) field.

Definition escapeQuotes (field : jsstring) : jsstring :=
  flat_map (fun c => if c =? QUOTE then [QUOTE; QUOTE] else [c]) field.

Definition csvField (field : jsstring) : jsstring :=
  if needsQuotes field then [QUOTE] ++ escapeQuotes field ++ [QUOTE] else field.

Definition csvRow (row : list jsstring) : jsstring :=
  join [COMMA] (map csvField row) ++ [LF].

Definition toCSV (matrix : list (list jsstring)) : jsstring :=
  concat (map csvRow matrix).

(** A matrix with a comma, a line feed and double quotes in its cells. *)
Definition sampleHeader : list jsstring := [js "name"; js "note"].

Definition sampleData : list (list jsstring) :=
  [ [js "Smith, John"; (js "line 1" ++ [LF] ++ js "line 2")%list];
    [(js "say " ++ [QUOTE] ++ js "hi" ++ [QUOTE])%list; []] ].

(** The CSV text of the example of the specification: the line [name,age],
    then the line ["Smith, John",30]. *)
Definition exampleCSV : jsstring :=
  (js "name,age" ++ [LF] ++ [QUOTE] ++ js "Smith, John" ++ [QUOTE] ++ js ",30"
   ++ [LF])%list.



(** A data row that the reader keeps under a header row of [n] cells: it has
    as many cells, or one more that is empty. *)
Definition fitsHeader (n : nat) (r : list jsstring) : Prop :=
  length r = n \/ (length r = (n + 1)%nat /\ r !! n = Some []).

#[global] Instance fitsHeader_dec (n : nat) (r : list jsstring) :
  Decision (fitsHeader n r).
Proof. unfold fitsHeader. apply _. Defined.

(** The table of a returned result. *)
Definition returned {A} (r : result A) : option A :=
  match r with
  | Ok a => Some a
  | Throw _ | ThrowTypeError => None
  end.

(** [rest] does not start with a double quote. *)
Definition noQuoteAhead (rest : jsstring) : Prop :=
  match rest with
  | c :: _ => (c =? QUOTE) = false
  | [] => True
  end.

(** [ceil(a / b)] for a positive [b] *)
Definition ceilDiv (a b : nat) : nat := (a + b - 1) / b.

(** The first [n] slices of [size] consecutive elements of [l]. *)
Fixpoint pagesOf {A} (n size : nat) (l : list A) : list (list A) :=
  match n with
  | O => []
  | S n' => take size l :: pagesOf n' size (drop size l)
  end.



(** A table whose only column is keyed [id], as the CSV reader builds from a
    file with the header [id], with its one cell selected. *)
Definition idColumnState : Editor.EditorState :=
  {| Editor.dataColumns := [ {| key := js "id"; label := js "Id"; type := TNumber |} ];
     Editor.tableRows := [ {[ js "id" := js "7" ]} ];
     Editor.selectedCells := {[ js "7-id" ]} |}.

(** The table of [indentedCellState] below with the string [r1-id] in the
    selection as well: no column is keyed [id]. *)
Definition strayIdState : Editor.EditorState :=
  {| Editor.dataColumns := [ {| key := js "name"; label := js "Name"; type := TText |} ];
     Editor.tableRows := [ <[ js "name" := js " foo" ]> {[ js "id" := js "r1" ]} ];
     Editor.selectedCells := {[ js "r1-name" ]} ∪ {[ js "r1-id" ]} |}.

(** A table with the one cell [ foo] (a space before the word), selected. *)
Definition indentedCellState : Editor.EditorState :=
  {| Editor.dataColumns := [ {| key := js "name"; label := js "Name"; type := TText |} ];
     Editor.tableRows := [ <[ js "name" := js " foo" ]> {[ js "id" := js "r1" ]} ];
     Editor.selectedCells := {[ js "r1-name" ]} |}.

End Spec.

(** ** Properties *)

Import Parser Editor Spec.

Local Open Scope nat_scope.

(** *** The identifier generator *)






(** *** Column type inference *)

Section DetectTypeFacts.

Variable dateParseFails : jsstring -> bool.

Lemma detectType_unfold_nonempty (values : list value) :
  validValues values <> [] ->
  detectType dateParseFails values =
    if forallb numeric (validValues values) then
      if existsb (fun v => includesChar (text v) DOLLAR) (validValues values)
      then TCurrency else TNumber
    else if forallb (fun v => negb (dateParseFails (text v))) (validValues values)
    then TDate
    else if forallb (fun v => Nat.ltb (length (text v)) 20) (validValues values)
            && Nat.ltb (2 * uniqueCount (validValues values))
                       (length (validValues values))
    then TTag else TText.
Proof.
  intros Hne. unfold detectType.
  destruct (validValues values) as [|v vs] eqn:E; [congruence|].
  reflexivity.
Qed.

Lemma forallb_constant {A} (f : A -> bool) (x : A) (l : list A) :
  l <> [] -> Forall (fun y => y = x) l -> forallb f l = f x.
Proof.
  intros Hne Hall. induction Hall as [|y l -> Hall IH]; [congruence|].
  simpl. destruct l as [|z l]; simpl in *.
  - apply andb_true_r.
  - rewrite IH by congruence. apply andb_diag.
Qed.

Lemma uniqueCount_constant (x : value) (l : list value) :
  l <> [] -> Forall (fun y => y = x) l -> uniqueCount l = 1.
Proof.
  unfold uniqueCount. intros Hne Hall.
  induction Hall as [|y l -> Hall IH]; [congruence|].
  destruct l as [|z l]; [reflexivity|].
  cbn [remove_dups]. destruct (decide_rel elem_of x (z :: l)) as [Hin|Hout].
  - apply IH. congruence.
  - exfalso. apply Hout. inversion Hall; subst. left.
Qed.

(** C4 (as the code has it): on a column with a non-empty value, rule 2
    fires exactly when every non-empty value, without its [$] and [,], is a
    number to [Number] ([NaN] excluded, infinities included); it then gives
    [currency] when a value holds a [$] and [number] otherwise. *)
Theorem detectType_numeric_rule (values : list value) :
  validValues values <> [] ->
  (forallb numeric (validValues values) = true ->
   detectType dateParseFails values =
     if existsb (fun v => includesChar (text v) DOLLAR) (validValues values)
     then TCurrency else TNumber)
  /\ (forallb numeric (validValues values) = false ->
      detectType dateParseFails values <> TCurrency
      /\ detectType dateParseFails values <> TNumber).
Proof.
  intros Hne. rewrite (detectType_unfold_nonempty values Hne). split.
  - intros ->. reflexivity.
  - intros ->.
    destruct (forallb _ _); [split; discriminate|].
    destruct (_ && _); split; discriminate.
Qed.

(** C5 (as the code has it): a column whose non-empty values are one and the
    same short text, neither a number nor a date, is a [tag] column when it
    has three of them or more, and a [text] column with one or two. *)
Theorem detectType_identical_short (values : list value) (v : jsstring) :
  validValues values <> [] ->
  Forall (fun x => x = Str v) (validValues values) ->
  length v < 20 ->
  numeric (Str v) = false ->
  dateParseFails v = true ->
  detectType dateParseFails values =
    if Nat.leb 3 (length (validValues values)) then TTag else TText.
Proof.
  intros Hne Hall Hshort Hnum Hdate.
  rewrite (detectType_unfold_nonempty values Hne).
  rewrite (forallb_constant numeric (Str v)) by assumption. rewrite Hnum.
  rewrite (forallb_constant _ (Str v)) by assumption.
  cbn [text]. rewrite Hdate. cbn [negb].
  rewrite (forallb_constant _ (Str v)) by assumption. cbn [text].
  rewrite (uniqueCount_constant (Str v)) by assumption.
  replace (Nat.ltb (length v) 20) with true
    by (symmetry; apply Nat.ltb_lt; assumption).
  cbn [andb].
  destruct (Nat.leb_spec 3 (length (validValues values))) as [H|H];
    destruct (Nat.ltb_spec (2 * 1) (length (validValues values))) as [H'|H'];
    try reflexivity; lia.
Qed.

End DetectTypeFacts.

(** The amended C4 on the column [$1,200], empty, [35]. *)
Lemma detectType_numeric_rule_witness :
  validValues [Str (js "$1,200"); Str []; Str (js "35")] <> []
  /\ detectType noDateParses [Str (js "$1,200"); Str []; Str (js "35")]
     = TCurrency.
Proof.
  split; [discriminate|].
  apply (proj1 (detectType_numeric_rule noDateParses
                  [Str (js "$1,200"); Str []; Str (js "35")] ltac:(discriminate))).
  reflexivity.
Defined.

(** C4 fails as stated: [Infinity] is no finite number and rule 2 fires on
    it all the same. *)
Lemma detectType_infinity_is_number :
  isFinite (Number (stripMoney (js "Infinity"))) = false
  /\ numeric (Str (js "Infinity")) = true
  /\ detectType noDateParses [Str (js "Infinity")] = TNumber.
Proof. vm_compute. repeat split; reflexivity. Qed.

(** The amended C5 on three, and on two, cells [abc]. *)
Lemma detectType_identical_short_witness :
  (length (js "abc") < 20
   /\ numeric (Str (js "abc")) = false /\ noDateParses (js "abc") = true)
  /\ detectType noDateParses [Str (js "abc"); Str (js "abc"); Str (js "abc")] = TTag
  /\ detectType noDateParses [Str (js "abc"); Str (js "abc")] = TText.
Proof.
  split; [repeat split; vm_compute; lia|].
  split.
  - apply (detectType_identical_short noDateParses
             [Str (js "abc"); Str (js "abc"); Str (js "abc")] (js "abc"));
      [discriminate | repeat constructor | vm_compute; lia | reflexivity | reflexivity].
  - apply (detectType_identical_short noDateParses
             [Str (js "abc"); Str (js "abc")] (js "abc"));
      [discriminate | repeat constructor | vm_compute; lia | reflexivity | reflexivity].
Defined.

(** C5 fails as stated: a column of one short value, or of the same short
    value twice, is a [text] column. *)
Lemma detectType_single_value_is_text :
  detectType noDateParses [Str (js "abc")] = TText
  /\ detectType noDateParses [Str (js "abc"); Str (js "abc")] = TText
  /\ numeric (Str (js "abc")) = false
  /\ noDateParses (js "abc") = true.
Proof. vm_compute. repeat split; reflexivity. Qed.

(** *** The scanning loop of the CSV reader *)

(** What every branch of the loop keeps, the loop keeps. *)
Lemma scan_invariant (P : scanner -> Prop) :
  (forall c st, P st -> P (addChar c st)) ->
  (forall st, P st -> P (toggleQuotes st)) ->
  (forall st, P st -> P (endCell st)) ->
  (forall st, P st -> P (endRow st)) ->
  forall content st, P st -> P (scan content st).
Proof.
  intros Hadd Htoggle Hcell Hrow content.
  remember (length content) as n eqn:Hn.
  revert content Hn.
  induction n as [n IH] using lt_wf_ind.
  intros [|c rest] Hn st Hst; [exact Hst|].
  cbn [scan]. cbn [length] in Hn.
  assert (Hrest : forall st', P st' -> P (scan rest st')).
  { intros st' H'. apply (IH (length rest)); [lia | reflexivity | exact H']. }
  assert (Hrest' : forall n' rest' st',
             rest = n' :: rest' -> P st' -> P (scan rest' st')).
  { intros n' rest' st' -> H'. cbn [length] in Hn.
    apply (IH (length rest')); [lia | reflexivity | exact H']. }
  destruct (c =? QUOTE)%N.
  { destruct rest as [|n' rest']; [auto|].
    destruct (insideQuotes st && (n' =? QUOTE)%N); eauto. }
  destruct ((c =? COMMA)%N && negb (insideQuotes st)); [auto|].
  destruct (((c =? CR)%N || (c =? LF)%N) && negb (insideQuotes st)); [|auto].
  destruct rest as [|n' rest']; [auto|].
  destruct ((c =? CR)%N && (n' =? LF)%N); eauto.
Qed.

(** A scanned row has a cell at least. *)
Lemma scan_rows_nonempty (content : jsstring) (st : scanner) :
  Forall (fun r => r <> []) (rowsData st) ->
  Forall (fun r => r <> []) (rowsData (scan content st)).
Proof.
  apply (scan_invariant (fun st => Forall (fun r => r <> []) (rowsData st)));
    try (intros; assumption).
  intros st' H. cbn [endRow rowsData]. apply Forall_app. split; [exact H|].
  constructor; [|constructor]. intros E. apply app_eq_nil in E as [_ E].
  discriminate.
Qed.

Lemma scanRows_nonempty (content : jsstring) :
  Forall (fun r => r <> []) (scanRows content).
Proof.
  unfold scanRows.
  pose proof (scan_rows_nonempty content scanStart (Forall_nil_2 _)) as H.
  destruct (_ || _); [|exact H].
  cbn [endRow rowsData]. apply Forall_app. split; [exact H|].
  constructor; [|constructor]. intros E. apply app_eq_nil in E as [_ E].
  discriminate.
Qed.

Lemma isValidRow_false (r : list jsstring) :
  r <> [] -> isValidRow r = false <-> r = [[]].
Proof.
  intros Hne. destruct r as [|c [|d r]]; [congruence| |].
  - cbn [isValidRow]. unfold eqb_str. rewrite negb_false_iff, bool_decide_eq_true.
    split; [intros ->; reflexivity | intros [= ->]; reflexivity].
  - cbn [isValidRow]. split; discriminate.
Qed.







(** *** The errors of the CSV reader *)

(** *** Row objects *)

Lemma setProp_lookup_ne (r : TableRow) (name other s : jsstring) :
  other <> name -> setProp r name s !! other = r !! other.
Proof.
  intros Hne. unfold setProp.
  destruct (r !! name); [|destruct (eqb_str name (js "__proto__"))];
    try reflexivity; apply lookup_insert_ne; congruence.
Qed.

Lemma setProp_lookup (r : TableRow) (name s : jsstring) :
  name <> js "__proto__" -> setProp r name s !! name = Some s.
Proof.
  intros Hne. unfold setProp, eqb_str.
  destruct (r !! name); [apply lookup_insert_eq|].
  rewrite bool_decide_eq_false_2 by exact Hne. apply lookup_insert_eq.
Qed.

(** An assignment never makes [__proto__] an own property. *)
Lemma setProp_proto (r : TableRow) (name s : jsstring) :
  r !! js "__proto__" = None -> setProp r name s !! js "__proto__" = None.
Proof.
  intros Hnone. destruct (decide (name = js "__proto__")) as [->|Hne].
  - unfold setProp. rewrite Hnone. exact Hnone.
  - rewrite setProp_lookup_ne by congruence. exact Hnone.
Qed.

Lemma setProp_is_Some (r : TableRow) (name other s : jsstring) :
  is_Some (r !! other) -> is_Some (setProp r name s !! other).
Proof.
  intros Hsome. destruct (decide (other = name)) as [->|Hne].
  - unfold setProp. destruct Hsome as [old Hold]. rewrite Hold.
    rewrite lookup_insert_eq. eauto.
  - rewrite setProp_lookup_ne by exact Hne. exact Hsome.
Qed.

Lemma assignCells_other (headers : list jsstring) (idx : nat)
    (rowValues : list jsstring) (row : TableRow) (name : jsstring) :
  name ∉ headers ->
  assignCells headers idx rowValues row !! name = row !! name.
Proof.
  revert idx row. induction headers as [|h hs IH]; intros idx row Hout;
    [reflexivity|].
  cbn [assignCells]. apply not_elem_of_cons in Hout as [Hne Hout].
  rewrite IH by exact Hout. apply setProp_lookup_ne. exact Hne.
Qed.

Lemma assignCells_proto (headers : list jsstring) (idx : nat)
    (rowValues : list jsstring) (row : TableRow) :
  row !! js "__proto__" = None ->
  assignCells headers idx rowValues row !! js "__proto__" = None.
Proof.
  revert idx row. induction headers as [|h hs IH]; intros idx row Hnone;
    [exact Hnone|].
  cbn [assignCells]. apply IH. apply setProp_proto. exact Hnone.
Qed.

Lemma assignCells_is_Some (headers : list jsstring) (idx : nat)
    (rowValues : list jsstring) (row : TableRow) (name : jsstring) :
  is_Some (row !! name) ->
  is_Some (assignCells headers idx rowValues row !! name).
Proof.
  revert idx row. induction headers as [|h hs IH]; intros idx row Hsome;
    [exact Hsome|].
  cbn [assignCells]. apply IH. apply setProp_is_Some. exact Hsome.
Qed.

(** Every header other than [__proto__] becomes an own property. *)
Lemma assignCells_own (headers : list jsstring) (idx : nat)
    (rowValues : list jsstring) (row : TableRow) (h : jsstring) :
  h ∈ headers -> h <> js "__proto__" ->
  is_Some (assignCells headers idx rowValues row !! h).
Proof.
  intros Hin Hne. revert idx row.
  induction headers as [|h0 hs IH]; intros idx row; [inversion Hin|].
  cbn [assignCells]. destruct (decide (h = h0)) as [<-|Hother].
  - apply assignCells_is_Some. rewrite setProp_lookup by exact Hne. eauto.
  - apply IH. apply elem_of_cons in Hin as [?|?]; [contradiction|assumption].
Qed.

(** With distinct headers, the property of a header other than [__proto__]
    holds the cell at its position. *)
Lemma assignCells_lookup (headers : list jsstring) (idx j : nat)
    (rowValues : list jsstring) (row : TableRow) (h : jsstring) :
  NoDup headers -> headers !! j = Some h -> h <> js "__proto__" ->
  assignCells headers idx rowValues row !! h
  = Some (default [] (rowValues !! (idx + j))).
Proof.
  intros Hnd. revert idx j row.
  induction Hnd as [|h0 hs Hout Hnd IH]; intros idx j row Hj Hne; [discriminate|].
  cbn [assignCells]. destruct j as [|j].
  - injection Hj as ->. rewrite assignCells_other by exact Hout.
    rewrite setProp_lookup by exact Hne. rewrite Nat.add_0_r. reflexivity.
  - cbn [lookup list_lookup] in Hj.
    rewrite (IH (S idx) j _ Hj Hne). do 3 f_equal. lia.
Qed.

(** *** [detectType] on a column read from row objects *)

Section DetectTypeAnyFacts.

Variable dateParseFails : jsstring -> bool.
Variable functionText : jsstring -> jsstring.

Lemma everyNumeric_primitive (vs : list value) :
  everyNumeric (map Primitive (List.filter isValid vs))
  = Ok (forallb numeric (List.filter isValid vs)).
Proof.
  induction vs as [|v vs IH]; [reflexivity|].
  cbn [List.filter]. destruct (isValid v) eqn:Hv; [|exact IH].
  destruct v as [| |s]; [discriminate|discriminate|].
  cbn [map everyNumeric forallb].
  destruct (numeric (Str s)); [exact IH|reflexivity].
Qed.

Lemma filter_isValidAny_primitive (vs : list value) :
  List.filter isValidAny (map Primitive vs)
  = map Primitive (List.filter isValid vs).
Proof.
  induction vs as [|v vs IH]; [reflexivity|].
  cbn [map List.filter isValidAny]. destruct (isValid v); cbn [map];
    rewrite IH; reflexivity.
Qed.

Lemma remove_dups_primitive (vs : list value) :
  remove_dups (map Primitive vs) = map Primitive (remove_dups vs).
Proof.
  induction vs as [|v vs IH]; [reflexivity|].
  cbn [map remove_dups].
  destruct (decide_rel elem_of v vs) as [Hin|Hout];
    destruct (decide_rel elem_of (Primitive v) (map Primitive vs)) as [Hin'|Hout'].
  - exact IH.
  - elim Hout'. apply (list_elem_of_fmap_2 Primitive). exact Hin.
  - elim Hout. apply list_elem_of_fmap in Hin' as (v' & [= ->] & Hin'). exact Hin'.
  - cbn [map]. rewrite IH. reflexivity.
Qed.

Lemma existsb_primitive (test : property -> bool) (vs : list value) :
  existsb test (map Primitive vs) = existsb (fun v => test (Primitive v)) vs.
Proof.
  induction vs as [|v vs IH]; [reflexivity|].
  cbn [map existsb]. rewrite IH. reflexivity.
Qed.

Lemma forallb_primitive (test : property -> bool) (vs : list value) :
  forallb test (map Primitive vs) = forallb (fun v => test (Primitive v)) vs.
Proof.
  induction vs as [|v vs IH]; [reflexivity|].
  cbn [map forallb]. rewrite IH. reflexivity.
Qed.

(** On a column of primitive values [detectTypeAny] is [detectType]. *)
Lemma detectTypeAny_primitive (vs : list value) :
  detectTypeAny dateParseFails functionText (map Primitive vs)
  = Ok (detectType dateParseFails vs).
Proof.
  unfold detectTypeAny, detectType, validValues, uniqueCount.
  rewrite filter_isValidAny_primitive, length_map.
  destruct (Nat.eqb _ 0); [reflexivity|].
  rewrite everyNumeric_primitive. cbn [mbind result_bind].
  rewrite existsb_primitive, !forallb_primitive, remove_dups_primitive, length_map.
  cbn [textAny].
  destruct (forallb numeric _); [destruct (existsb _ _); reflexivity|].
  destruct (forallb _ _); [reflexivity|].
  destruct (forallb _ _ && _); reflexivity.
Qed.

(** On a column of inherited members the first call of [replace] throws. *)
Lemma detectTypeAny_inherited (names : list jsstring) :
  names <> [] ->
  detectTypeAny dateParseFails functionText (map Inherited names)
  = ThrowTypeError.
Proof.
  destruct names as [|name names]; [congruence|]. intros _. reflexivity.
Qed.

End DetectTypeAnyFacts.

(** [headers.map] with a callback that can throw. *)
Lemma mapM_result_Ok {A B} (f : A -> result B) (P : A -> B -> Prop)
    (l : list A) :
  Forall (fun x => exists y, f x = Ok y /\ P x y) l ->
  exists ys, mapM f l = Ok ys /\ Forall2 P l ys.
Proof.
  induction 1 as [|x l (y & Hy & HP) _ (ys & Hys & HPs)].
  - exists []. split; [reflexivity|constructor].
  - exists (y :: ys). split; [|constructor; assumption].
    cbn [mapM]. rewrite Hy. cbn [mbind result_bind].
    change (mapM f l) with (mapM f l) in Hys. rewrite Hys. reflexivity.
Qed.

Lemma mapM_result_TypeError {A B} (f : A -> result B) (l : list A) :
  Forall (fun x => (exists y, f x = Ok y) \/ f x = ThrowTypeError) l ->
  Exists (fun x => f x = ThrowTypeError) l ->
  mapM f l = ThrowTypeError (A := list B).
Proof.
  induction 1 as [|x l Hx Hl IH]; intros Hex; [inversion Hex|].
  cbn [mapM]. destruct Hx as [[y Hy]|Hx].
  - rewrite Hy. cbn [mbind result_bind].
    apply Exists_cons in Hex as [Hex|Hex]; [congruence|].
    specialize (IH Hex). change (mapM f l = ThrowTypeError) in IH.
    rewrite IH. reflexivity.
  - rewrite Hx. reflexivity.
Qed.

(** *** The rows and the columns of the CSV reader *)

Lemma filter_nil_not_Exists {A} (P : A -> Prop) `{!forall x, Decision (P x)}
    (l : list A) :
  filter P l = [] <-> ~ Exists P l.
Proof.
  induction l as [|x l IH]; [split; [intros _ Hex; inversion Hex | reflexivity]|].
  destruct (decide (P x)) as [Hx|Hx].
  - rewrite filter_cons_True by exact Hx. split; [discriminate|].
    intros Hno. elim Hno. left. exact Hx.
  - rewrite filter_cons_False by exact Hx. rewrite IH, Exists_cons. tauto.
Qed.

Lemma acceptsRow_fitsHeader (headers rowValues : list jsstring) :
  acceptsRow headers rowValues = true <-> fitsHeader (length headers) rowValues.
Proof.
  unfold acceptsRow, fitsHeader.
  rewrite orb_true_iff, andb_true_iff, !Nat.eqb_eq, bool_decide_eq_true.
  reflexivity.
Qed.

(** The rows that the reader takes for rows of data: the scanned rows other
    than the single empty cell. *)
Lemma filter_isValidRow_scanned (rs : list (list jsstring)) :
  Forall (fun r => r <> []) rs ->
  List.filter isValidRow rs
  = List.filter (fun r => bool_decide (r <> [[]])) rs.
Proof.
  induction 1 as [|r rs Hr _ IH]; [reflexivity|].
  cbn [List.filter]. rewrite IH.
  destruct (isValidRow r) eqn:E.
  - rewrite bool_decide_eq_true_2; [reflexivity|].
    intros Hcell. apply (isValidRow_false _ Hr) in Hcell. congruence.
  - apply (isValidRow_false _ Hr) in E.
    rewrite bool_decide_eq_false_2; [reflexivity|]. intros Hne. exact (Hne E).
Qed.

Section ParseCSVErrors.

Variable random36 : nat -> jsstring.
Variable dateParseFails : jsstring -> bool.
Variable functionText : jsstring -> jsstring.
Variable toUpperCase : jsstring -> jsstring.

(** The rows of the table: one for every data row that fits the header row,
    each without an own [__proto__] and with every other header as an own
    property. *)
Lemma dataRows_rows (headers : list jsstring) (data : list (list jsstring))
    (drawn : nat) (acc : list TableRow) :
  exists rows',
    dataRows random36 headers data drawn acc = acc ++ rows'
    /\ length rows' = length (filter (fitsHeader (length headers)) data)
    /\ Forall (fun row =>
                 row !! js "__proto__" = None
                 /\ forall h, h ∈ headers -> h <> js "__proto__" ->
                      is_Some (row !! h)) rows'.
Proof.
  revert drawn acc. induction data as [|vals data IH]; intros drawn acc.
  - exists []. cbn. rewrite app_nil_r. repeat split. constructor.
  - cbn [dataRows]. destruct (acceptsRow headers vals) eqn:E.
    + apply acceptsRow_fitsHeader in E.
      destruct (IH (S drawn)
                  (acc ++ [assignCells headers 0 vals
                             {[ js "id" := generateId (random36 drawn) ]}]))
        as (rows' & Hrows & Hlen & Hall).
      eexists (_ :: rows'). rewrite Hrows, <- app_assoc. split; [reflexivity|].
      rewrite filter_cons_True by exact E. cbn [length]. split; [lia|].
      constructor; [|exact Hall]. split.
      * apply assignCells_proto. apply lookup_singleton_ne.
        apply (bool_decide_unpack _). vm_compute. exact I.
      * intros h Hin Hne. apply assignCells_own; assumption.
    + destruct (IH drawn acc) as (rows' & Hrows & Hlen & Hall).
      exists rows'. split; [exact Hrows|]. split; [|exact Hall].
      rewrite filter_cons_False; [exact Hlen|].
      intros Hfits. apply acceptsRow_fitsHeader in Hfits. congruence.
Qed.

(** A column whose header is an own property of every row is typed by
    [detectType] on the strings of the rows. *)
Lemma columnOf_own (rows : list TableRow) (h : jsstring) :
  Forall (fun row => is_Some (row !! h)) rows ->
  columnOf dateParseFails functionText toUpperCase rows h
  = Ok {| key := h; label := capitalize toUpperCase h;
          type := detectType dateParseFails
                    (map (fun row => Str (default [] (row !! h))) rows) |}.
Proof.
  intros Hall. unfold columnOf.
  replace (map (fun r => getProp r h) rows)
    with (map Primitive (map (fun row => Str (default [] (row !! h))) rows)).
  { rewrite detectTypeAny_primitive. reflexivity. }
  rewrite map_map. induction Hall as [|row rows [s Hs] _ IH]; [reflexivity|].
  cbn [map]. rewrite IH. f_equal. unfold getProp.
  unfold jsstring, code_unit in *. rewrite !Hs. reflexivity.
Qed.

(** The column of the header [__proto__] of a table with a row: every row
    gives its prototype, and [detectType] throws. *)
Lemma columnOf_proto (rows : list TableRow) :
  rows <> [] ->
  Forall (fun row => row !! js "__proto__" = None) rows ->
  columnOf dateParseFails functionText toUpperCase rows (js "__proto__")
  = ThrowTypeError.
Proof.
  intros Hne Hall. unfold columnOf.
  replace (map (fun r => getProp r (js "__proto__")) rows)
    with (map Inherited (map (fun _ : TableRow => js "__proto__") rows)).
  { rewrite detectTypeAny_inherited; [reflexivity|].
    destruct rows; [congruence|discriminate]. }
  rewrite map_map. clear Hne.
  induction Hall as [|row rows Hrow _ IH]; [reflexivity|].
  cbn [map]. rewrite IH. unfold getProp. rewrite Hrow. reflexivity.
Qed.

(** The columns of the table: [detectType] throws when a header is
    [__proto__] and a data row fits the header row; otherwise there is one
    column for every header, keyed by it. *)
Lemma columns_cases (headers : list jsstring) (data : list (list jsstring)) :
  let rows := dataRows random36 headers data 0 [] in
  length rows = length (filter (fitsHeader (length headers)) data)
  /\ (js "__proto__" ∈ headers ->
      Exists (fitsHeader (length headers)) data ->
      mapM (columnOf dateParseFails functionText toUpperCase rows) headers
      = ThrowTypeError)
  /\ (~ (js "__proto__" ∈ headers
         /\ Exists (fitsHeader (length headers)) data) ->
      exists cols,
        mapM (columnOf dateParseFails functionText toUpperCase rows) headers
        = Ok cols
        /\ map key cols = headers).
Proof.
  cbv zeta.
  destruct (dataRows_rows headers data 0 []) as (rows & -> & Hlen & Hall).
  cbn [app]. split; [exact Hlen|].
  assert (Hown : forall h, h ∈ headers -> h <> js "__proto__" ->
                   Forall (fun row => is_Some (row !! h)) rows).
  { intros h Hin Hne. eapply Forall_impl; [exact Hall|].
    intros row [_ Hrow]. apply Hrow; assumption. }
  assert (Hproto : Forall (fun row => row !! js "__proto__" = None) rows).
  { eapply Forall_impl; [exact Hall|]. intros row [Hrow _]. exact Hrow. }
  assert (Hnil : ~ Exists (fitsHeader (length headers)) data -> rows = []).
  { intros Hnone. apply length_zero_iff_nil. rewrite Hlen.
    apply length_zero_iff_nil, filter_nil_not_Exists. exact Hnone. }
  assert (Hcons : Exists (fitsHeader (length headers)) data -> rows <> []).
  { intros Hex ->. cbn [length] in Hlen. symmetry in Hlen.
    apply length_zero_iff_nil, filter_nil_not_Exists in Hlen. exact (Hlen Hex). }
  split.
  - intros Hin Hex. apply mapM_result_TypeError.
    + apply Forall_forall. intros h Hh.
      destruct (decide (h = js "__proto__")) as [->|Hne].
      * right. apply columnOf_proto; [exact (Hcons Hex) | exact Hproto].
      * left. eexists. apply columnOf_own. apply Hown; assumption.
    + apply Exists_exists. exists (js "__proto__"). split; [exact Hin|].
      apply columnOf_proto; [exact (Hcons Hex) | exact Hproto].
  - intros Hnot.
    destruct (mapM_result_Ok
                (columnOf dateParseFails functionText toUpperCase rows)
                (fun h col => key col = h) headers) as (cols & Hcols & Hkeys).
    + apply Forall_forall. intros h Hh.
      assert (Hc : Forall (fun row : TableRow => is_Some (row !! h)) rows).
      { destruct (decide (h = js "__proto__")) as [->|Hne].
        - rewrite Hnil by tauto. constructor.
        - apply Hown; assumption. }
      eexists. split; [apply columnOf_own, Hc | reflexivity].
    + exists cols. split; [exact Hcols|].
      clear -Hkeys. induction Hkeys as [|h col hs cols Hk _ IH]; [reflexivity|].
      cbn [map]. rewrite Hk, IH. reflexivity.
Qed.

Lemma parseCSV_cases (content : jsstring) :
  parseCSV random36 dateParseFails functionText toUpperCase content =
    match scanRows content with
    | [] => Throw (js "File appears empty")
    | _ :: _ =>
        match List.filter (fun r => bool_decide (r <> [[]])) (scanRows content) with
        | [] => Throw (js "No valid data found")
        | first :: data =>
            let rows := dataRows random36 (map trim first) data 0 [] in
            columns ←
              mapM (columnOf dateParseFails functionText toUpperCase rows)
                   (map trim first);
            Ok {| rows := rows; columns := columns |}
        end
    end.
Proof.
  unfold parseCSV.
  rewrite (filter_isValidRow_scanned _ (scanRows_nonempty content)).
  destruct (scanRows content); reflexivity.
Qed.

(** Past the two errors of the reader, [detectType] throws or the reader
    returns the table. *)
Lemma parseCSV_table (content : jsstring) (first : list jsstring)
    (data : list (list jsstring)) :
  List.filter (fun r => bool_decide (r <> [[]])) (scanRows content)
  = first :: data ->
  (js "__proto__" ∈ map trim first
   /\ Exists (fitsHeader (length first)) data
   /\ parseCSV random36 dateParseFails functionText toUpperCase content
      = ThrowTypeError)
  \/ (~ (js "__proto__" ∈ map trim first
         /\ Exists (fitsHeader (length first)) data)
      /\ exists t,
           parseCSV random36 dateParseFails functionText toUpperCase content = Ok t
           /\ map key (columns t) = map trim first
           /\ length (rows t) = length (filter (fitsHeader (length first)) data)
           /\ rows t = dataRows random36 (map trim first) data 0 []).
Proof.
  intros E. rewrite parseCSV_cases, E.
  destruct (scanRows content); [discriminate|]. cbv zeta.
  destruct (columns_cases (map trim first) data) as (Hlen & Hthrows & Hok).
  cbv zeta in Hlen, Hthrows, Hok. rewrite length_map in Hlen, Hthrows, Hok.
  destruct (decide (js "__proto__" ∈ map trim first
                    /\ Exists (fitsHeader (length first)) data)) as [[Hin Hex]|Hnot].
  - left. split; [exact Hin|]. split; [exact Hex|].
    rewrite (Hthrows Hin Hex). reflexivity.
  - right. split; [exact Hnot|]. destruct (Hok Hnot) as (cols & -> & Hkeys).
    eexists. split; [reflexivity|]. repeat split; assumption.
Qed.


End ParseCSVErrors.


(** The example of the specification: two columns [name] and [age], the
    second a [number] column, and one row. *)
Example parseCSV_example :
  option_map (fun t => (map key (columns t), map type (columns t),
                        map (fun row => (row !! js "name", row !! js "age")) (rows t)))
    (returned (parseCSV sampleRandom36 noDateParses nativeFunctionText
                 upperAscii exampleCSV))
  = Some ([js "name"; js "age"], [TText; TNumber],
          [(Some (js "Smith, John"), Some (js "30"))]).
Proof. vm_compute. reflexivity. Qed.


(** *** The paginator *)

Lemma ceilDiv_zero (p : nat) : 1 <= p -> ceilDiv 0 p = 0.
Proof. intros Hp. unfold ceilDiv. apply Nat.div_small. lia. Qed.

Lemma ceilDiv_step (a p : nat) :
  1 <= p -> 1 <= a -> ceilDiv a p = S (ceilDiv (a - p) p).
Proof.
  intros Hp Ha. unfold ceilDiv.
  destruct (Nat.le_gt_cases p a) as [Hle|Hlt].
  - replace (a + p - 1) with (a - p + p - 1 + 1 * p) by lia.
    rewrite Nat.div_add by lia. lia.
  - replace (a - p) with 0 by lia. cbn [Nat.add].
    rewrite (Nat.div_small (p - 1)) by lia.
    replace (a + p - 1) with (a - 1 + 1 * p) by lia.
    rewrite Nat.div_add by lia. rewrite Nat.div_small by lia. reflexivity.
Qed.

(** [ceilDiv a p] is the least number of [p]s that cover [a]. *)
Lemma ceilDiv_bounds (a p : nat) :
  1 <= p -> a <= ceilDiv a p * p /\ (1 <= a -> (ceilDiv a p - 1) * p < a).
Proof.
  intros Hp. unfold ceilDiv.
  pose proof (Nat.div_mod_eq (a + p - 1) p) as E.
  pose proof (Nat.mod_upper_bound (a + p - 1) p ltac:(lia)) as B.
  split; [nia|]. intros Ha. nia.
Qed.

Section Paginator.

Context {A : Type}.
Variable tableRows : list A.
Variable rowsPerPage : Z.

(** Inside the list, with a positive size, [slice] is [take] after [drop]. *)
Lemma slice_page (i : nat) :
  (1 <= rowsPerPage)%Z ->
  slice tableRows (Z.of_nat i) (Z.of_nat i + rowsPerPage)
  = take (Z.to_nat rowsPerPage) (drop i tableRows).
Proof.
  intros Hp. unfold slice. cbv zeta.
  destruct (Z.ltb_spec (Z.of_nat i) 0) as [?|_]; [lia|].
  destruct (Z.ltb_spec (Z.of_nat i + rowsPerPage) 0) as [?|_]; [lia|].
  destruct (Nat.le_gt_cases (length tableRows) i) as [Hout|Hin].
  - rewrite (drop_ge tableRows i) by lia.
    rewrite (drop_ge tableRows) by lia. rewrite !take_nil. reflexivity.
  - rewrite (Z.min_l (Z.of_nat i)) by lia. rewrite Nat2Z.id.
    destruct (Z.le_gt_cases (Z.of_nat i + rowsPerPage)
                (Z.of_nat (length tableRows))) as [Hle|Hgt].
    + rewrite Z.min_l by lia. f_equal. lia.
    + rewrite Z.min_r by lia.
      rewrite !take_ge; [reflexivity | |]; rewrite length_drop; lia.
Qed.

(** The loop from the index [i]: the pages so far, then the slices of what
    is left of the rows. *)
Lemma paginateFrom_pages (fuel i : nat) (pages : list (list A)) :
  (1 <= rowsPerPage)%Z ->
  length tableRows - i < fuel ->
  paginateFrom fuel tableRows rowsPerPage (Z.of_nat i) pages
  = Some (pages ++ pagesOf (ceilDiv (length tableRows - i) (Z.to_nat rowsPerPage))
                           (Z.to_nat rowsPerPage) (drop i tableRows)).
Proof.
  intros Hp. revert i pages.
  induction fuel as [|fuel IH]; intros i pages Hfuel; [lia|].
  cbn [paginateFrom].
  destruct (Z.ltb_spec (Z.of_nat i) (Z.of_nat (length tableRows))) as [Hin|Hout].
  - rewrite slice_page by assumption.
    replace (Z.of_nat i + rowsPerPage)%Z
      with (Z.of_nat (i + Z.to_nat rowsPerPage)) by lia.
    rewrite IH by lia.
    rewrite (ceilDiv_step (length tableRows - i)) by lia.
    cbn [pagesOf]. rewrite <- app_assoc. cbn [app].
    rewrite drop_drop.
    replace (length tableRows - i - Z.to_nat rowsPerPage)
      with (length tableRows - (i + Z.to_nat rowsPerPage)) by lia.
    reflexivity.
  - replace (length tableRows - i) with 0 by lia.
    rewrite ceilDiv_zero by lia. cbn [pagesOf]. rewrite app_nil_r. reflexivity.
Qed.

(** A step that does not advance never reaches the end of a non-empty list. *)
Lemma paginateFrom_stuck (fuel : nat) (i : Z) (pages : list (list A)) :
  (rowsPerPage <= 0)%Z -> tableRows <> [] -> (i <= 0)%Z ->
  paginateFrom fuel tableRows rowsPerPage i pages = None.
Proof.
  intros Hp Hne. revert i pages.
  induction fuel as [|fuel IH]; intros i pages Hi; [reflexivity|].
  cbn [paginateFrom].
  destruct (Z.ltb_spec i (Z.of_nat (length tableRows))) as [_|Hout].
  - apply IH. lia.
  - destruct tableRows; [congruence|]. cbn [length] in Hout. lia.
Qed.

End Paginator.

Lemma pagesOf_length {A} (n size : nat) (l : list A) :
  length (pagesOf n size l) = n.
Proof.
  revert l. induction n as [|n IH]; intros l; [reflexivity|].
  cbn [pagesOf length]. rewrite IH. reflexivity.
Qed.

Lemma pagesOf_lookup {A} (n size k : nat) (l : list A) :
  k < n -> pagesOf n size l !! k = Some (take size (drop (k * size) l)).
Proof.
  revert k l. induction n as [|n IH]; intros k l Hk; [lia|].
  destruct k as [|k]; cbn [pagesOf]; [reflexivity|].
  cbn [lookup list_lookup]. change (pagesOf n size (drop size l) !! k
    = Some (take size (drop (S k * size) l))).
  rewrite IH by lia. rewrite drop_drop. reflexivity.
Qed.

Lemma pagesOf_concat {A} (n size : nat) (l : list A) :
  length l <= n * size -> concat (pagesOf n size l) = l.
Proof.
  revert l. induction n as [|n IH]; intros l Hl.
  - destruct l; [reflexivity|]. cbn [length] in Hl. lia.
  - cbn [pagesOf concat]. rewrite IH.
    + apply take_drop.
    + rewrite length_drop. lia.
Qed.

(** The pages of a positive page size: what the loop returns once it has
    fuel for one iteration per row and one more. *)
Lemma paginatedRows_pagesOf {A} (tableRows : list A) (rowsPerPage : Z) (fuel : nat) :
  (1 <= rowsPerPage)%Z ->
  length tableRows < fuel ->
  paginatedRows fuel tableRows rowsPerPage
  = Some (pagesOf (ceilDiv (length tableRows) (Z.to_nat rowsPerPage))
                  (Z.to_nat rowsPerPage) tableRows).
Proof.
  intros Hp Hfuel. unfold paginatedRows.
  change 0%Z with (Z.of_nat 0).
  rewrite paginateFrom_pages by (assumption || lia).
  cbn [app]. rewrite drop_0, Nat.sub_0_r. reflexivity.
Qed.

(** C2: with a page size of five or more the paginator returns
    [ceil(R/P)] pages whose concatenation is the row list; page [k] is the
    slice of [P] rows from row [k * P], full when it is not the last, and
    the last holds the remainder, one row at least. *)
Theorem paginatedRows_partition {A} (tableRows : list A) (rowsPerPage : Z) :
  (5 <= rowsPerPage)%Z ->
  exists pages : list (list A),
    (forall fuel, length tableRows < fuel ->
       paginatedRows fuel tableRows rowsPerPage = Some pages)
    /\ length pages = ceilDiv (length tableRows) (Z.to_nat rowsPerPage)
    /\ length tableRows <= length pages * Z.to_nat rowsPerPage
    /\ (tableRows <> [] ->
        (length pages - 1) * Z.to_nat rowsPerPage < length tableRows)
    /\ (tableRows = [] -> pages = [])
    /\ concat pages = tableRows
    /\ forall k page, pages !! k = Some page ->
         page = take (Z.to_nat rowsPerPage)
                     (drop (k * Z.to_nat rowsPerPage) tableRows)
         /\ (S k < length pages -> length page = Z.to_nat rowsPerPage)
         /\ (S k = length pages ->
             length page = length tableRows - k * Z.to_nat rowsPerPage
             /\ 1 <= length page <= Z.to_nat rowsPerPage).
Proof.
  intros Hp.
  set (p := Z.to_nat rowsPerPage). assert (Hp' : 1 <= p) by lia.
  set (n := ceilDiv (length tableRows) p).
  destruct (ceilDiv_bounds (length tableRows) p Hp') as [Hcover Hleast].
  fold n in Hcover, Hleast.
  exists (pagesOf n p tableRows).
  rewrite pagesOf_length.
  split; [intros fuel Hfuel; apply paginatedRows_pagesOf; lia|].
  split; [reflexivity|].
  split; [exact Hcover|].
  split; [intros Hne; apply Hleast; destruct tableRows; [congruence | cbn; lia]|].
  split.
  { intros ->. subst n. cbn [length]. rewrite ceilDiv_zero by lia. reflexivity. }
  split; [apply pagesOf_concat; exact Hcover|].
  intros k page Hk.
  assert (Hkn : k < n).
  { apply lookup_lt_Some in Hk. rewrite pagesOf_length in Hk. exact Hk. }
  rewrite pagesOf_lookup in Hk by exact Hkn. injection Hk as <-.
  split; [reflexivity|].
  assert (Hrows : 1 <= length tableRows).
  { destruct (length tableRows) eqn:E; [|lia].
    subst n. rewrite ceilDiv_zero in Hkn by lia. lia. }
  specialize (Hleast Hrows).
  rewrite length_take, length_drop.
  destruct n as [|m]; [lia|].
  replace (S m - 1) with m in Hleast by lia. cbn [Nat.mul] in Hcover.
  split.
  - intros Hlast.
    assert (S k * p <= m * p) by (apply Nat.mul_le_mono_r; lia). lia.
  - intros [= ->]. lia.
Qed.

(** C2 on seven rows and pages of five. *)
Lemma paginatedRows_partition_witness :
  (5 <= 5)%Z
  /\ paginatedRows 8 [1; 2; 3; 4; 5; 6; 7] 5 = Some [[1; 2; 3; 4; 5]; [6; 7]].
Proof.
  split; [lia|].
  destruct (paginatedRows_partition [1; 2; 3; 4; 5; 6; 7] 5 ltac:(lia))
    as (pages & Hrun & _).
  rewrite (Hrun 8 ltac:(cbn; lia)).
  rewrite <- (Hrun 8 ltac:(cbn; lia)). reflexivity.
Defined.

(** C10: the loop ends on every row list when the page size is one or more,
    whatever the size (it is used as it is, below 5 and above 100 too); with
    a size of zero or less it never ends on a non-empty list. *)
Theorem paginatedRows_terminates {A} (tableRows : list A) (rowsPerPage : Z) :
  ((1 <= rowsPerPage)%Z ->
   exists pages : list (list A),
     (forall fuel, length tableRows < fuel ->
        paginatedRows fuel tableRows rowsPerPage = Some pages)
     /\ forall k page, pages !! k = Some page ->
          page = take (Z.to_nat rowsPerPage)
                      (drop (k * Z.to_nat rowsPerPage) tableRows))
  /\ ((rowsPerPage <= 0)%Z -> tableRows <> [] ->
      forall fuel, paginatedRows fuel tableRows rowsPerPage = None).
Proof.
  split.
  - intros Hp.
    exists (pagesOf (ceilDiv (length tableRows) (Z.to_nat rowsPerPage))
                    (Z.to_nat rowsPerPage) tableRows).
    split; [intros fuel Hfuel; apply paginatedRows_pagesOf; assumption|].
    intros k page Hk.
    assert (Hkn : k < ceilDiv (length tableRows) (Z.to_nat rowsPerPage)).
    { apply lookup_lt_Some in Hk. rewrite pagesOf_length in Hk. exact Hk. }
    rewrite pagesOf_lookup in Hk by exact Hkn. congruence.
  - intros Hp Hne fuel. apply paginateFrom_stuck; [assumption | assumption | lia].
Qed.

(** C10 on three rows: pages of one row with a size of one, no end with a
    size of zero. *)
Lemma paginatedRows_terminates_witness :
  paginatedRows 4 [1; 2; 3] 1 = Some [[1]; [2]; [3]]
  /\ paginatedRows 1000 [1; 2; 3] 0 = None.
Proof.
  destruct (paginatedRows_terminates [1; 2; 3] 1) as [Hpos _].
  destruct (paginatedRows_terminates [1; 2; 3] 0) as [_ Hzero].
  split.
  - destruct (Hpos ltac:(lia)) as (pages & Hrun & _).
    rewrite (Hrun 4 ltac:(cbn; lia)).
    rewrite <- (Hrun 4 ltac:(cbn; lia)). reflexivity.
  - apply Hzero; [lia | discriminate].
Defined.

(** *** The numbered lists of [FormattedCell] *)











(** *** The frame of [applyFormat] *)

Section ApplyFormatFrame.

Variable functionText : jsstring -> jsstring.
Variable type : FormatType.
Variable value : option jsstring.
Variable selected : gset jsstring.

(** The columns of a row only write the properties that a column names and
    whose cell is selected. *)
Lemma formatColumns_frame (row : TableRow) (cols : list TableColumn)
    (newRow : TableRow) (modified : bool) (name : jsstring) :
  name ∉ map key cols \/ cellId row name ∉ selected ->
  fst (formatColumns functionText type value selected row cols newRow modified)
    !! name
  = newRow !! name.
Proof.
  revert newRow modified.
  induction cols as [|col cols IH]; intros newRow modified Hout; [reflexivity|].
  assert (Hrest : name ∉ map key cols \/ cellId row name ∉ selected).
  { destruct Hout as [Hout|Hout]; [left|right; exact Hout].
    cbn [map] in Hout. apply not_elem_of_cons in Hout as [_ Hout]. exact Hout. }
  cbn [formatColumns]. case_bool_decide as Hsel.
  - rewrite IH by exact Hrest. apply setProp_lookup_ne. intros ->.
    destruct Hout as [Hout|Hout]; [|exact (Hout Hsel)].
    apply Hout. cbn [map]. left.
  - apply IH. exact Hrest.
Qed.

Lemma formatRow_frame (cols : list TableColumn) (row : TableRow) (name : jsstring) :
  name ∉ map key cols \/ cellId row name ∉ selected ->
  formatRow functionText type value selected cols row !! name = row !! name.
Proof.
  intros Hout. unfold formatRow.
  pose proof (formatColumns_frame row cols row false name Hout) as H.
  destruct (formatColumns functionText type value selected row cols row false)
    as [newRow []]; [exact H | reflexivity].
Qed.

End ApplyFormatFrame.

(** C9 (as the code has it): [applyFormat] leaves the columns and the
    selection as they are and keeps the number and the order of the rows; in
    every row, a property keeps its value, and reads as before, unless a
    column is keyed by its name and the cell of that column is selected in
    the row; so the row keeps its id unless the table has a column keyed
    [id] whose cell is selected in it, and a row without a selected cell is
    the row it was. *)
Theorem applyFormat_frame (functionText : jsstring -> jsstring)
    (type : FormatType) (value : option jsstring) (st : EditorState) :
  dataColumns (applyFormat functionText type value st) = dataColumns st
  /\ selectedCells (applyFormat functionText type value st) = selectedCells st
  /\ length (tableRows (applyFormat functionText type value st))
     = length (tableRows st)
  /\ forall i row, tableRows st !! i = Some row ->
       exists row',
         tableRows (applyFormat functionText type value st) !! i = Some row'
         /\ (forall name,
               name ∉ map key (dataColumns st)
               \/ cellId row name ∉ selectedCells st ->
               row' !! name = row !! name
               /\ getProp row' name = getProp row name)
         /\ (js "id" ∉ map key (dataColumns st)
             \/ cellId row (js "id") ∉ selectedCells st ->
             idText row' = idText row)
         /\ ((forall col, col ∈ dataColumns st ->
                 cellId row (key col) ∉ selectedCells st) ->
             row' = row).
Proof.
  unfold applyFormat. destruct (Nat.eqb _ _).
  { repeat split; try reflexivity. intros i row Hi. exists row. auto. }
  cbn [dataColumns selectedCells tableRows].
  split; [reflexivity|]. split; [reflexivity|].
  split; [apply length_map|].
  intros i row Hi.
  exists (formatRow functionText type value (selectedCells st) (dataColumns st) row).
  split; [rewrite list_lookup_fmap, Hi; reflexivity|].
  split; [|split].
  - intros name Hout.
    pose proof (formatRow_frame functionText type value (selectedCells st)
                  (dataColumns st) row name Hout) as Hname.
    split; [exact Hname|]. unfold getProp. rewrite Hname. reflexivity.
  - intros Hout. unfold idText, rowId.
    rewrite formatRow_frame by exact Hout. reflexivity.
  - intros Hnone. apply map_eq. intros name. apply formatRow_frame.
    destruct (decide (name ∈ map key (dataColumns st))) as [Hin|Hout];
      [right|left; exact Hout].
    apply list_elem_of_fmap in Hin as (col & -> & Hcol). apply Hnone, Hcol.
Qed.

(** C9 fails as stated: in a table with a column keyed [id], formatting the
    cell of that column rewrites the id of the row. *)
Lemma applyFormat_rewrites_id :
  map idText (tableRows idColumnState) = [js "7"]
  /\ map idText (tableRows (applyFormat nativeFunctionText bold None idColumnState))
     = [js "*7*"].
Proof. vm_compute. split; reflexivity. Qed.

(** The amended C9 on a table without a column keyed [id] whose selection
    holds the string [r1-id]: the row keeps its id. *)
Lemma applyFormat_frame_witness :
  (js "id" ∉ map key (dataColumns strayIdState))
  /\ (js "r1-id" ∈ selectedCells strayIdState)
  /\ exists row',
       tableRows (applyFormat nativeFunctionText bold None strayIdState) !! 0
       = Some row'
       /\ idText row' = js "r1".
Proof.
  assert (Hout : js "id" ∉ map key (dataColumns strayIdState)).
  { apply (bool_decide_unpack _). vm_compute. exact I. }
  split; [exact Hout|].
  split; [apply elem_of_union; right; apply elem_of_singleton; reflexivity|].
  destruct (applyFormat_frame nativeFunctionText bold None strayIdState)
    as (_ & _ & _ & Hrows).
  destruct (Hrows 0 _ eq_refl) as (row' & Hrow' & _ & Hid & _).
  exists row'. split; [exact Hrow'|]. apply Hid. left. exact Hout.
Defined.

(** *** Bold applied twice *)

(** C6 on the cell [ foo]: the first application gives [* foo*], which reads
    as a bullet line, and the second gives [* *foo**], not [ foo].  The cell
    [*foo* ], with a space at its end, does not come back either. *)
Lemma applyFormat_bold_twice_indented (functionText : jsstring -> jsstring) :
  map (fun row => row !! js "name") (tableRows indentedCellState)
    = [Some (js " foo")]
  /\ map (fun row => row !! js "name")
       (tableRows (applyFormat functionText bold None indentedCellState))
    = [Some (js "* foo*")]
  /\ map (fun row => row !! js "name")
       (tableRows (applyFormat functionText bold None
                     (applyFormat functionText bold None indentedCellState)))
    = [Some (js "* *foo**")]
  /\ formatCell bold None (formatCell bold None (js "*foo* ")) = js "*foo* *".
Proof. vm_compute. repeat split; reflexivity. Qed.

(** *** The round trip through the CSV writer *)

(** Outside quotes, the characters of a field that needs no quotes go to the
    current cell. *)
Lemma scan_plain_field (field rest : jsstring) rs r cell :
  needsQuotes field = false ->
  scan (field ++ rest)
    {| rowsData := rs; currentRow := r; currentCell := cell; insideQuotes := false |}
  = scan rest
    {| rowsData := rs; currentRow := r; currentCell := cell ++ field;
       insideQuotes := false |}.
Proof.
  revert cell. induction field as [|c field IH]; intros cell Hplain.
  - rewrite app_nil_r. reflexivity.
  - cbn [needsQuotes existsb] in Hplain.
    apply orb_false_iff in Hplain as [Hc Hplain].
    apply orb_false_iff in Hc as [Hc Hlf].
    apply orb_false_iff in Hc as [Hc Hcr].
    apply orb_false_iff in Hc as [Hcomma Hquote].
    cbn [app scan]. rewrite Hquote, Hcomma, Hcr, Hlf. cbn [andb orb].
    unfold addChar. cbn [rowsData currentRow currentCell insideQuotes].
    rewrite (IH (cell ++ [c]) Hplain). rewrite <- app_assoc. reflexivity.
Qed.

(** Inside quotes, the escaped characters of a field go to the current cell
    and the closing quote ends the quoting. *)
Lemma scan_quoted_body (field rest : jsstring) rs r cell :
  noQuoteAhead rest ->
  scan (escapeQuotes field ++ QUOTE :: rest)
    {| rowsData := rs; currentRow := r; currentCell := cell; insideQuotes := true |}
  = scan rest
    {| rowsData := rs; currentRow := r; currentCell := cell ++ field;
       insideQuotes := false |}.
Proof.
  intros Hrest. revert cell. induction field as [|c field IH]; intros cell.
  - cbn [escapeQuotes flat_map app scan]. rewrite N.eqb_refl, app_nil_r.
    destruct rest as [|n rest']; [reflexivity|].
    cbn [noQuoteAhead] in Hrest. rewrite Hrest. reflexivity.
  - cbn [escapeQuotes flat_map]. fold (escapeQuotes field).
    destruct (c =? QUOTE)%N eqn:Hc.
    + apply N.eqb_eq in Hc. subst c.
      cbn [app scan]. rewrite !N.eqb_refl. cbn [insideQuotes andb].
      unfold addChar. cbn [rowsData currentRow currentCell insideQuotes].
      rewrite IH, <- app_assoc. reflexivity.
    + cbn [app scan]. rewrite Hc. cbn [insideQuotes negb].
      rewrite !andb_false_r.
      unfold addChar. cbn [rowsData currentRow currentCell insideQuotes].
      rewrite IH, <- app_assoc. reflexivity.
Qed.

(** A written field, quoted or not, is read back into the current cell. *)
Lemma scan_field (field rest : jsstring) rs r cell :
  noQuoteAhead rest ->
  scan (csvField field ++ rest)
    {| rowsData := rs; currentRow := r; currentCell := cell; insideQuotes := false |}
  = scan rest
    {| rowsData := rs; currentRow := r; currentCell := cell ++ field;
       insideQuotes := false |}.
Proof.
  intros Hrest. unfold csvField. destruct (needsQuotes field) eqn:Hq.
  - rewrite <- !app_assoc. cbn [app scan]. rewrite N.eqb_refl.
    cbn [insideQuotes andb].
    destruct (escapeQuotes field ++ QUOTE :: rest) as [|n rest'] eqn:E.
    { destruct (escapeQuotes field); discriminate. }
    rewrite <- E. unfold toggleQuotes.
    cbn [rowsData currentRow currentCell insideQuotes negb].
    apply scan_quoted_body. exact Hrest.
  - apply scan_plain_field. exact Hq.
Qed.

(** A written row is read back as one more row. *)
Lemma scan_row (row : list jsstring) (rest : jsstring) rs r :
  row <> [] ->
  scan (csvRow row ++ rest)
    {| rowsData := rs; currentRow := r; currentCell := []; insideQuotes := false |}
  = scan rest
    {| rowsData := rs ++ [r ++ row]; currentRow := []; currentCell := [];
       insideQuotes := false |}.
Proof.
  intros Hne. revert r. unfold csvRow.
  induction row as [|field row IH]; intros r; [congruence|].
  destruct row as [|next row].
  - cbn [map join]. rewrite <- app_assoc.
    rewrite scan_field by reflexivity.
    cbn [app scan]. cbn [N.eqb Pos.eqb QUOTE COMMA CR LF andb orb negb insideQuotes].
    unfold endRow. cbn [rowsData currentRow currentCell insideQuotes].
    destruct rest; reflexivity.
  - change (map csvField (field :: next :: row))
      with (csvField field :: map csvField (next :: row)).
    change (join [COMMA] (csvField field :: map csvField (next :: row)))
      with (csvField field ++ [COMMA] ++ join [COMMA] (map csvField (next :: row))).
    rewrite <- !app_assoc.
    rewrite scan_field by reflexivity.
    cbn [app scan]. cbn [N.eqb Pos.eqb QUOTE COMMA andb negb insideQuotes].
    unfold endCell. cbn [rowsData currentRow currentCell insideQuotes].
    change (LF :: rest) with ([LF] ++ rest). rewrite app_assoc.
    rewrite (IH ltac:(discriminate) (r ++ [field])).
    rewrite <- app_assoc. reflexivity.
Qed.

(** The scan of a written matrix whose rows have a cell at least gives the
    matrix back. *)
Lemma scan_toCSV (matrix : list (list jsstring)) (rest : jsstring) rs :
  Forall (fun row => row <> []) matrix ->
  scan (toCSV matrix ++ rest)
    {| rowsData := rs; currentRow := []; currentCell := []; insideQuotes := false |}
  = scan rest
    {| rowsData := rs ++ matrix; currentRow := []; currentCell := [];
       insideQuotes := false |}.
Proof.
  intros Hrows. revert rs. unfold toCSV.
  induction Hrows as [|row matrix Hrow _ IH]; intros rs.
  - rewrite app_nil_r. reflexivity.
  - cbn [map concat]. rewrite <- app_assoc.
    rewrite scan_row by exact Hrow. cbn [app].
    rewrite IH, <- app_assoc. reflexivity.
Qed.

Lemma scanRows_toCSV (matrix : list (list jsstring)) :
  Forall (fun row => row <> []) matrix ->
  scanRows (toCSV matrix) = matrix.
Proof.
  intros Hrows. unfold scanRows, scanStart.
  rewrite <- (app_nil_r (toCSV matrix)).
  rewrite scan_toCSV by exact Hrows. reflexivity.
Qed.

(** The tokenizer round trip: the scanning loop reads back, cell for cell,
    every written matrix whose rows have a cell at least. *)
Theorem toCSV_scanRows_roundtrip (matrix : list (list jsstring)) :
  Forall (fun row => row <> []) matrix ->
  scanRows (toCSV matrix) = matrix.
Proof. exact (scanRows_toCSV matrix). Qed.

(** The scan of the written sample matrix. *)
Lemma toCSV_scanRows_roundtrip_witness :
  Forall (fun row => row <> []) sampleData
  /\ scanRows (toCSV sampleData) = sampleData.
Proof.
  assert (H : Forall (fun row : list jsstring => row <> []) sampleData)
    by (repeat constructor; discriminate).
  split; [exact H|]. apply (toCSV_scanRows_roundtrip sampleData H).
Defined.

Section RoundTrip.

Variable random36 : nat -> jsstring.
Variable dateParseFails : jsstring -> bool.
Variable functionText : jsstring -> jsstring.
Variable toUpperCase : jsstring -> jsstring.

(** When every data row has the length of the header row, every one of them
    becomes a row of the table, in order. *)
Lemma dataRows_all (headers : list jsstring) (data : list (list jsstring))
    (drawn : nat) (acc : list TableRow) :
  Forall (fun vals => length vals = length headers) data ->
  dataRows random36 headers data drawn acc
  = acc ++ imap (fun i vals =>
                   assignCells headers 0 vals
                     {[ js "id" := generateId (random36 (drawn + i)) ]}) data.
Proof.
  intros Hall. revert drawn acc.
  induction Hall as [|vals data Hlen _ IH]; intros drawn acc.
  - cbn. rewrite app_nil_r. reflexivity.
  - cbn [dataRows]. unfold acceptsRow. rewrite Hlen, Nat.eqb_refl. cbn [orb].
    rewrite IH. cbn [imap]. rewrite <- app_assoc. cbn [app].
    rewrite Nat.add_0_r. do 2 f_equal.
    apply imap_ext. intros i x _. cbn. do 4 f_equal. lia.
Qed.

(** C1 (as the code has it): the scan reads a written matrix back cell for
    cell; and when the header row is not a single empty cell and holds
    distinct, trimmed names other than [__proto__], and every data row has
    the length of the header row and is not a single empty cell, the reader
    returns one row per data row, in order, in which every header names its
    cell. *)
Theorem parseCSV_toCSV_roundtrip (header : list jsstring)
    (data : list (list jsstring)) :
  header <> [] -> header <> [[]] ->
  NoDup header ->
  Forall (fun h => trim h = h) header ->
  js "__proto__" ∉ header ->
  Forall (fun vals => length vals = length header /\ vals <> [[]]) data ->
  scanRows (toCSV (header :: data)) = header :: data
  /\ exists t,
       parseCSV random36 dateParseFails functionText toUpperCase
         (toCSV (header :: data)) = Ok t
       /\ map key (columns t) = header
       /\ length (rows t) = length data
       /\ forall i vals, data !! i = Some vals ->
            exists row, rows t !! i = Some row
              /\ forall j h, header !! j = Some h ->
                   row !! h = vals !! j
                   /\ exists cell, vals !! j = Some cell
                        /\ getProp row h = Primitive (Str cell).
Proof.
  intros Hne Hcell Hnd Htrim Hproto Hdata.
  assert (Hrows : Forall (fun row => row <> []) (header :: data)).
  { constructor; [exact Hne|]. eapply Forall_impl; [exact Hdata|].
    intros vals [Hlen _] ->. destruct header; [congruence | discriminate]. }
  assert (Hscan := scanRows_toCSV _ Hrows).
  split; [exact Hscan|].
  assert (Hvalid : List.filter (fun r => bool_decide (r <> [[]])) (header :: data)
                   = header :: data).
  { cbn [List.filter]. rewrite bool_decide_eq_true_2 by exact Hcell. f_equal.
    clear Hscan Hrows. induction Hdata as [|vals data [Hlen Hv] _ IH]; [reflexivity|].
    cbn [List.filter]. rewrite bool_decide_eq_true_2 by exact Hv.
    rewrite IH. reflexivity. }
  assert (Hheaders : map trim header = header).
  { clear -Htrim. induction Htrim as [|h hs Hh _ IH]; [reflexivity|].
    cbn [map]. rewrite Hh, IH. reflexivity. }
  destruct (parseCSV_table random36 dateParseFails functionText toUpperCase
              (toCSV (header :: data)) header data)
    as [(Hin & _)|(_ & t & Ht & Hkeys & _ & Hrowst)].
  { rewrite Hscan. exact Hvalid. }
  { rewrite Hheaders in Hin. contradiction. }
  rewrite Hheaders in Hkeys, Hrowst.
  rewrite dataRows_all in Hrowst
    by (eapply Forall_impl; [exact Hdata | intros ? [? _]; assumption]).
  cbn [app] in Hrowst.
  exists t. split; [exact Ht|]. split; [exact Hkeys|]. rewrite Hrowst.
  split; [apply length_imap|].
  intros i vals Hi. eexists. split.
  { rewrite list_lookup_imap, Hi. reflexivity. }
  intros j h Hj.
  assert (Hh : h <> js "__proto__").
  { intros ->. apply Hproto. eapply list_elem_of_lookup_2. exact Hj. }
  rewrite Forall_forall in Hdata.
  destruct (Hdata vals (list_elem_of_lookup_2 _ _ _ Hi)) as [Hlen _].
  destruct (vals !! j) as [cell|] eqn:E.
  2:{ apply lookup_ge_None in E. apply lookup_lt_Some in Hj.
      unfold jsstring, code_unit in *. lia. }
  assert (Hown : assignCells header 0 vals
                   {[ js "id" := generateId (random36 (0 + i)) ]} !! h
                 = Some cell).
  { rewrite (assignCells_lookup _ 0 j _ _ h Hnd Hj Hh). cbn [Nat.add].
    unfold jsstring, code_unit in *. rewrite E. reflexivity. }
  split; [exact Hown|]. exists cell. split; [reflexivity|].
  unfold getProp. rewrite Hown. reflexivity.
Qed.

End RoundTrip.

(** The amended C1 on a matrix with a comma, a line feed and quotes. *)
Lemma parseCSV_toCSV_roundtrip_witness :
  NoDup sampleHeader
  /\ (js "__proto__" ∉ sampleHeader)
  /\ scanRows (toCSV (sampleHeader :: sampleData)) = sampleHeader :: sampleData
  /\ exists t,
       parseCSV sampleRandom36 noDateParses nativeFunctionText upperAscii
         (toCSV (sampleHeader :: sampleData)) = Ok t
       /\ length (rows t) = 2.
Proof.
  assert (Hnd : NoDup sampleHeader)
    by (apply (bool_decide_unpack _); vm_compute; exact I).
  assert (Hproto : js "__proto__" ∉ sampleHeader)
    by (apply (bool_decide_unpack _); vm_compute; exact I).
  split; [exact Hnd|]. split; [exact Hproto|].
  destruct (parseCSV_toCSV_roundtrip sampleRandom36 noDateParses
              nativeFunctionText upperAscii sampleHeader sampleData)
    as (Hscan & t & Ht & _ & Hlen & _).
  - discriminate.
  - discriminate.
  - exact Hnd.
  - repeat constructor.
  - exact Hproto.
  - repeat constructor; discriminate.
  - split; [exact Hscan|]. exists t. split; [exact Ht | exact Hlen].
Defined.

(** C1 fails as stated: of the matrix with the header [h] and one data cell,
    the empty string, the reader returns no row. *)
Lemma parseCSV_drops_empty_cell_row :
  scanRows (toCSV [[js "h"]; [[]]]) = [[js "h"]; [[]]]
  /\ option_map rows
       (returned (parseCSV sampleRandom36 noDateParses nativeFunctionText
                    upperAscii (toCSV [[js "h"]; [[]]]))) = Some [].
Proof. vm_compute. split; reflexivity. Qed.

(** *** Where bold applied twice does give the text back *)

Lemma splitLines_single (s : jsstring) :
  Forall (fun c => c <> LF) s -> splitLines s = [s].
Proof.
  induction 1 as [|c s Hc Hs IH]; [reflexivity|].
  cbn [splitLines]. apply N.eqb_neq in Hc. rewrite Hc.
  destruct s as [|n s]; [reflexivity|].
  apply Forall_cons in Hs as [Hn _]. apply N.eqb_neq in Hn.
  rewrite Hn, andb_false_r, IH. reflexivity.
Qed.

Lemma trim_starred (s : jsstring) :
  trim ([STAR] ++ s ++ [STAR]) = [STAR] ++ s ++ [STAR].
Proof.
  unfold trim, trimEnd. cbn [app trimStart isWhiteSpace].
  change (isWhiteSpace STAR) with false. cbn [rev].
  rewrite rev_app_distr. cbn [rev app trimStart].
  change (isWhiteSpace STAR) with false. cbn iota.
  change (rev (STAR :: rev s ++ [STAR])) with (rev (rev s ++ [STAR]) ++ [STAR]).
  rewrite rev_app_distr, rev_involutive. reflexivity.
Qed.

Lemma endsWith_starred (s : jsstring) :
  endsWith ([STAR] ++ s ++ [STAR]) [STAR] = true.
Proof.
  unfold endsWith. rewrite app_assoc, rev_app_distr.
  cbn [rev app startsWith]. rewrite N.eqb_refl.
  destruct (rev s ++ [STAR]); reflexivity.
Qed.

Lemma dropLastStar_snoc (s : jsstring) : dropLastStar (s ++ [STAR]) = s.
Proof.
  unfold dropLastStar. rewrite rev_app_distr. cbn [rev app].
  change (STAR =? STAR)%N with true. cbn iota. apply rev_involutive.
Qed.

(** On a one-line text without a block prefix that does not begin with
    white space and is not yet between stars, the second [bold] undoes the
    first. *)
Theorem formatCell_bold_twice (value : option jsstring) (content : jsstring) :
  Forall (fun c => c <> LF) content ->
  matchesAnyHeading (trim content) = false ->
  matchesBullet (trim content) = false ->
  matchesOrdered (trim content) = false ->
  (forall c rest, content = c :: rest -> isWhiteSpace c = false) ->
  startsWith (trim content) [STAR] && endsWith (trim content) [STAR] = false ->
  formatCell bold value content = [STAR] ++ content ++ [STAR]
  /\ formatCell bold value (formatCell bold value content) = content.
Proof.
  intros Hline Hh Hb Ho Hlead Hwrapped.
  assert (Hfirst : formatCell bold value content = [STAR] ++ content ++ [STAR]).
  { unfold formatCell. rewrite (splitLines_single _ Hline). cbn [map join].
    unfold formatLine. rewrite Hh, Hb, Ho, Hwrapped. reflexivity. }
  split; [exact Hfirst|]. rewrite Hfirst.
  unfold formatCell. rewrite splitLines_single.
  2:{ apply Forall_app. split; [repeat constructor; discriminate|].
      apply Forall_app. split; [exact Hline | repeat constructor; discriminate]. }
  cbn [map join]. unfold formatLine. rewrite trim_starred.
  assert (Hnb : matchesBullet ([STAR] ++ content ++ [STAR]) = false).
  { destruct content as [|c rest]; [reflexivity|].
    cbn [app matchesBullet]. rewrite (Hlead c rest eq_refl).
    apply andb_false_r. }
  assert (Hnh : matchesAnyHeading ([STAR] ++ content ++ [STAR]) = false).
  { destruct content as [|c0 [|c1 rest]]; reflexivity. }
  assert (Hno : matchesOrdered ([STAR] ++ content ++ [STAR]) = false).
  { destruct content as [|c0 rest]; reflexivity. }
  rewrite Hnh, Hnb, Hno. rewrite trim_starred, endsWith_starred.
  cbn [app startsWith]. change (STAR =? STAR)%N with true. cbn [andb].
  replace (startsWith (content ++ [STAR]) []) with true
    by (destruct (content ++ [STAR]); reflexivity).
  cbn [andb unwrapStars]. change (STAR =? STAR)%N with true. cbn iota.
  apply dropLastStar_snoc.
Qed.

(** Bold twice on the cell [foo]. *)
Lemma formatCell_bold_twice_witness :
  formatCell bold None (js "foo") = js "*foo*"
  /\ formatCell bold None (formatCell bold None (js "foo")) = js "foo".
Proof.
  apply (formatCell_bold_twice None (js "foo")).
  - repeat constructor; discriminate.
  - reflexivity.
  - reflexivity.
  - reflexivity.
  - intros c rest [= <- _]. reflexivity.
  - reflexivity.
Defined.
